(** * GitHub hook to buildmaster bridge (contrib/github_buildbot.py)

    A shallow embedding of the [GitHubBuildBot] resource: the payload is the
    Python object [json.loads] returns, every method is a function in a
    state-and-exception monad over the part of the world the code touches
    (file system, working directory, log, network, the [private] attribute),
    and the Twisted callbacks of the delivery are run against a script of
    what the buildmaster answers. *)

From Stdlib Require Import String Ascii List ZArith Bool Lia.
Import ListNotations.
Open Scope string_scope.
Open Scope list_scope.
Set Warnings "-register-all".

Infix "^^" := String.append (at level 60, right associativity).

(** ** Python values and exceptions *)

(** What [json.loads] produces: [None], [True]/[False], a number, a unicode
    string, a list, a dict.  A dict is an association list read by its first
    binding of a key.  All numbers behave alike in this program (each use
    of one raises [TypeError]), so only integers are kept. *)
Inductive json : Type :=
| JNull
| JBool (b : bool)
| JNum (n : Z)
| JStr (s : string)
| JArr (l : list json)
| JObj (kvs : list (string * json)).

(** The exception classes this program can meet; each derives from
    [Exception]. *)
Inductive exn_kind : Type :=
| KeyError | IndexError | TypeError | AttributeError | ValueError
| RuntimeError | OSError.

Record exn : Type := Exn { kind : exn_kind; message : string }.

Inductive result (A : Type) : Type :=
| Ok (a : A)
| Raise (e : exn).
Arguments Ok {A} a.
Arguments Raise {A} e.

Definition rbind {A B} (c : result A) (k : A -> result B) : result B :=
  match c with
  | Ok a => k a
  | Raise e => Raise e
  end.

Notation "'let?' x ':=' c 'in' k" := (rbind c (fun x => k))
  (at level 10, x name, c at level 100, k at level 200).

(** A [for] loop whose body may raise and whose only effect is to append
    to a local list. *)
Fixpoint for_each {A B} (f : A -> result B) (l : list A) : result (list B) :=
  match l with
  | [] => Ok []
  | a :: l' =>
      let? b := f a in
      let? bs := for_each f l' in
      Ok (b :: bs)
  end.

Fixpoint assoc (k : string) (kvs : list (string * json)) : option json :=
  match kvs with
  | [] => None
  | (k', v) :: kvs' => if String.eqb k k' then Some v else assoc k kvs'
  end.

(** [x[k]] for a string key [k]. *)
Definition getitem (x : json) (k : string) : result json :=
  match x with
  | JObj kvs =>
      match assoc k kvs with
      | Some v => Ok v
      | None => Raise (Exn KeyError k)
      end
  | JArr _ => Raise (Exn TypeError "list indices must be integers")
  | JStr _ => Raise (Exn TypeError "string indices must be integers")
  | _ => Raise (Exn TypeError "object is unsubscriptable")
  end.

Fixpoint chars (s : string) : list json :=
  match s with
  | EmptyString => []
  | String c s' => JStr (String c EmptyString) :: chars s'
  end.

(** What [for x in v] and [list.extend(v)] run over: the items of a list,
    the characters of a string, the keys of a dict. *)
Definition iterate (v : json) : result (list json) :=
  match v with
  | JArr l => Ok l
  | JStr s => Ok (chars s)
  | JObj kvs => Ok (map (fun kv => JStr (fst kv)) kvs)
  | _ => Raise (Exn TypeError "object is not iterable")
  end.

(** [files.extend(v)] *)
Definition extend (files : list json) (v : json) : result (list json) :=
  let? items := iterate v in Ok (files ++ items).

(** [s + v] and [v + s] where [s] is a string: defined on strings only. *)
Definition str_add (s : string) (v : json) : result string :=
  match v with
  | JStr t => Ok (s ^^ t)
  | _ => Raise (Exn TypeError "cannot concatenate 'str' and other objects")
  end.

Definition add_str (v : json) (s : string) : result string :=
  match v with
  | JStr t => Ok (t ^^ s)
  | _ => Raise (Exn TypeError "unsupported operand type(s) for +")
  end.

(** Truth value of an object, as [if self.private:] tests it. *)
Definition truthy (v : json) : bool :=
  match v with
  | JNull => false
  | JBool b => b
  | JNum n => negb (Z.eqb n 0)
  | JStr s => negb (String.eqb s "")
  | JArr l => match l with [] => false | _ => true end
  | JObj kvs => match kvs with [] => false | _ => true end
  end.

(** [v[:8]]: strings and lists can be sliced. *)
Definition slice8 (v : json) : result json :=
  match v with
  | JStr s => Ok (JStr (substring 0 8 s))
  | JArr l => Ok (JArr (firstn 8 l))
  | _ => Raise (Exn TypeError "object is unsubscriptable")
  end.

(** ** The two regular expressions *)

Definition LF : ascii := ascii_of_nat 10.

Fixpoint strip_prefix (p s : string) : option string :=
  match p with
  | EmptyString => Some s
  | String a p' =>
      match s with
      | EmptyString => None
      | String b s' => if Ascii.eqb a b then strip_prefix p' s' else None
      end
  end.

(** [$] without MULTILINE: the end of the string, or just before a newline
    that ends the string. *)
Definition at_end (s : string) : bool :=
  match s with
  | EmptyString => true
  | String c EmptyString => Ascii.eqb c LF
  | _ => false
  end.

(** The longest prefix [.+] can take (no newline in it), and what follows. *)
Fixpoint span_line (s : string) : string * string :=
  match s with
  | EmptyString => (EmptyString, EmptyString)
  | String c s' =>
      if Ascii.eqb c LF then (EmptyString, s)
      else let '(l, r) := span_line s' in (String c l, r)
  end.

(** [re.match(r"^refs\/heads\/(.+)$", refname)], giving [group(1)].  The
    greedy [.+] stops at the first newline; a shorter match is followed by
    a character that is not a newline, where [$] fails. *)
Definition match_branch (refname : string) : option string :=
  match strip_prefix "refs/heads/" refname with
  | None => None
  | Some rest =>
      let '(name, tail) := span_line rest in
      match name with
      | EmptyString => None
      | _ => if at_end tail then Some name else None
      end
  end.

(** [re.match(r"^0*$", newrev)] *)
Fixpoint match_zeros (newrev : string) : bool :=
  match newrev with
  | String "0" s' => match_zeros s'
  | _ => at_end newrev
  end.

(** [re.match(pattern, v)] raises [TypeError] unless [v] is a string. *)
Definition re_subject (v : json) : result string :=
  match v with
  | JStr s => Ok s
  | _ => Raise (Exn TypeError "expected string or buffer")
  end.

(** ** [self.master.split(':')] and [int(port)] *)

Fixpoint split_colon (s : string) : list string :=
  match s with
  | EmptyString => [EmptyString]
  | String c s' =>
      if Ascii.eqb c ":" then EmptyString :: split_colon s'
      else match split_colon s' with
           | [] => [String c EmptyString]
           | p :: ps => String c p :: ps
           end
  end.

Definition is_space (c : ascii) : bool :=
  let n := nat_of_ascii c in
  ((9 <=? n) && (n <=? 13) || (n =? 32))%nat.

Fixpoint lstrip (s : string) : string :=
  match s with
  | String c s' => if is_space c then lstrip s' else s
  | EmptyString => EmptyString
  end.

Definition digit_of (c : ascii) : option Z :=
  let n := nat_of_ascii c in
  if ((48 <=? n) && (n <=? 57))%nat then Some (Z.of_nat (n - 48)) else None.

(** Digits, then optional trailing white space, nothing else. *)
Fixpoint digits (acc : Z) (seen : bool) (s : string) : option Z :=
  match s with
  | EmptyString => if seen then Some acc else None
  | String c s' =>
      match digit_of c with
      | Some d => digits (10 * acc + d) true s'
      | None =>
          if seen && is_space c
          then match lstrip s' with EmptyString => Some acc | _ => None end
          else None
      end
  end.

(** [int(s)] for a string [s], base 10. *)
Definition py_int (s : string) : result Z :=
  let bad := Raise (Exn ValueError "invalid literal for int() with base 10") in
  match lstrip s with
  | String "-" s' =>
      match digits 0 false s' with Some n => Ok (- n)%Z | None => bad end
  | String "+" s' =>
      match digits 0 false s' with Some n => Ok n | None => bad end
  | s' => match digits 0 false s' with Some n => Ok n | None => bad end
  end.

(** [host, port = self.master.split(':')] then [port = int(port)] *)
Definition split_master (master : string) : result (string * Z) :=
  match split_colon master with
  | [host; port] => let? port := py_int port in Ok (host, port)
  | [_] => Raise (Exn ValueError "need more than 1 value to unpack")
  | _ => Raise (Exn ValueError "too many values to unpack")
  end.

(** ** The world the resource acts on *)

Inductive path_kind : Type := Dir | File.

(** Paths are the absolute paths the process hands to the operating
    system; [None] is a path that does not exist.  A relative path, which
    the system would resolve against the working directory, is outside
    this model: where a property depends on a path being entered more than
    once, it takes the root to be absolute ([is_absolute]). *)
Definition filesystem : Type := string -> option path_kind.

Inductive level : Type := DEBUG | INFO | WARNING | ERROR.

(** One [ChangeRecord]: the dict [process_change] builds for a commit.
    [revision], [comments] and the items of [files] and [links] are whatever
    objects the payload held. *)
Record Change : Type := {
  revision : json;
  comments : json;
  branch : string;
  who : string;
  files : list json;
  links : list json
}.

(** A log message.  Messages built from strings are kept as text; where
    the code prints the [str] or [repr] of an object, the object is kept. *)
Inductive logmsg : Type :=
| Text (s : string)
| PayloadDump (payload : json)
| AddChangeDump
| NewRevision (prefix : json)
| FieldDump (key : string) (value : json)
| TracebackOf (e : exn).

(** How the deferred of one [callRemote] fires: with the buildmaster's
    acknowledgment, with its error, or with the loss of the connection. *)
Inductive reply : Type :=
| Accepted
| Rejected (detail : string)
| ConnectionLost.

(** What happens on the network side, in the order it happens: the calls
    the client makes ([factory.login], [reactor.connectTCP], [callRemote],
    [loseConnection]) and the replies that reach it. *)
Inductive net_event : Type :=
| Login (username password : string)
| ConnectTCP (host : string) (port : Z)
| CallRemote (change : Change)
| Reply (r : reply)
| LoseConnection.

(** The attributes of [self]. *)
Record GitHubBuildBot : Type := {
  github : string;
  master : string;
  local_dir : string;
  private : json
}.

(** [commands.getstatusoutput(cmd)]: the external tool sees the working
    directory and the file system, returns a status and its output, and may
    leave the file system changed. *)
Definition shell_t : Type :=
  string -> string -> filesystem -> (Z * string) * filesystem.

Record World : Type := {
  fs : filesystem;
  cwd : string;
  shell : shell_t;
  self : GitHubBuildBot;
  logs : list (level * logmsg);
  net : list net_event
}.

(** ** State and exceptions *)

Definition M (A : Type) : Type := World -> result A * World.

Definition ret {A} (a : A) : M A := fun w => (Ok a, w).

Definition bind {A B} (c : M A) (k : A -> M B) : M B :=
  fun w =>
    match c w with
    | (Ok a, w') => k a w'
    | (Raise e, w') => (Raise e, w')
    end.

Definition raise {A} (e : exn) : M A := fun w => (Raise e, w).

Definition lift {A} (r : result A) : M A := fun w => (r, w).

(** [try: body except Exception: handler]; every [exn_kind] is an
    [Exception]. *)
Definition try_except (body : M unit) (handler : exn -> M unit) : M unit :=
  fun w =>
    match body w with
    | (Ok tt, w') => (Ok tt, w')
    | (Raise e, w') => handler e w'
    end.

Notation "x <- c ;; k" := (bind c (fun x => k))
  (at level 100, c at next level, right associativity).
Notation "c ;; k" := (bind c (fun _ => k))
  (at level 100, right associativity).

Definition get_self : M GitHubBuildBot := fun w => (Ok (self w), w).

Definition set_private (v : json) : M unit :=
  fun w =>
    let s := self w in
    (Ok tt,
     {| fs := fs w; cwd := cwd w; shell := shell w;
        self := {| github := github s; master := master s;
                   local_dir := local_dir s; private := v |};
        logs := logs w; net := net w |}).

Definition logging (l : level) (m : logmsg) : M unit :=
  fun w =>
    (Ok tt,
     {| fs := fs w; cwd := cwd w; shell := shell w; self := self w;
        logs := logs w ++ [(l, m)]; net := net w |}).

Definition emit (e : net_event) : M unit :=
  fun w =>
    (Ok tt,
     {| fs := fs w; cwd := cwd w; shell := shell w; self := self w;
        logs := logs w; net := net w ++ [e] |}).

(** [os.path.exists(path)] *)
Definition path_exists (path : string) : M bool :=
  fun w => (Ok (match fs w path with Some _ => true | None => false end), w).

(** [os.chdir(path)]: moves the process there when [path] is a directory,
    raises [OSError] otherwise. *)
Definition chdir (path : string) : M unit :=
  fun w =>
    match fs w path with
    | Some Dir =>
        (Ok tt,
         {| fs := fs w; cwd := path; shell := shell w; self := self w;
            logs := logs w; net := net w |})
    | Some File => (Raise (Exn OSError "Not a directory"), w)
    | None => (Raise (Exn OSError "No such file or directory"), w)
    end.

(** [commands.getstatusoutput(cmd)] *)
Definition getstatusoutput (cmd : string) : M (Z * string) :=
  fun w =>
    let '(r, fs') := shell w (cwd w) cmd (fs w) in
    (Ok r,
     {| fs := fs'; cwd := cwd w; shell := shell w; self := self w;
        logs := logs w; net := net w |}).

(** ** Repository mirror: [github_sync], [fetch], [create_repo] *)

Definition fetch (repo_dir : string) : M unit :=
  chdir repo_dir ;;
  let cmd := "git fetch" in
  logging INFO (Text ("Fetching changes from github to: " ^^ repo_dir)) ;;
  r <- getstatusoutput cmd ;;
  let '(result, output) := r in
  if negb (Z.eqb result 0) then
    logging ERROR (Text output) ;;
    raise (Exn RuntimeError "Unable to fetch remote changes")
  else ret tt.

(** [tmp + "/" + repo + ".git"] *)
Definition repodir_of (tmp : string) (repo : json) : result string :=
  let? a := str_add (tmp ^^ "/") repo in Ok (a ^^ ".git").

(** The URL [create_repo] clones from: SSH style for a private
    repository, the git protocol otherwise. *)
Definition clone_url (private : json) (github_url : string) (user repo : json)
  : result string :=
  if truthy private then
    let? a := str_add ("git@" ^^ github_url ^^ ":") user in
    let? b := str_add (a ^^ "/") repo in
    Ok (b ^^ ".git")
  else
    let? a := str_add ("git://" ^^ github_url ^^ "/") user in
    let? b := str_add (a ^^ "/") repo in
    Ok (b ^^ ".git").

Definition create_repo (tmp : string) (user repo : json) (github_url : string)
  : M unit :=
  s <- get_self ;;
  url <- lift (clone_url (private s) github_url user repo) ;;
  repodir <- lift (repodir_of tmp repo) ;;
  chdir tmp ;;
  let cmd := "git clone --mirror " ^^ url ^^ " " ^^ repodir in
  logging INFO (Text ("Clone bare repository: " ^^ cmd)) ;;
  r <- getstatusoutput cmd ;;
  let '(result, output) := r in
  if negb (Z.eqb result 0) then
    logging ERROR (Text output) ;;
    raise (Exn RuntimeError "Unable to initalize bare repository")
  else ret tt.

Definition root_missing (tmp : string) : string :=
  "temporary directory " ^^ tmp
  ^^ " does not exist;                                 please create it".

Definition github_sync (tmp : string) (user repo : json) (github_url : string)
  : M unit :=
  ex <- path_exists tmp ;;
  if negb ex then raise (Exn RuntimeError (root_missing tmp))
  else
    repodir <- lift (repodir_of tmp repo) ;;
    ex <- path_exists repodir ;;
    if ex then
      chdir repodir ;;
      fetch repodir
    else
      create_repo tmp user repo github_url.

(** ** Change extraction and submission: [process_change] *)

(** The body of [for commit in payload['commits']], in evaluation order. *)
Definition change_of_commit (branch : string) (commit : json) : result Change :=
  let files := [] in
  let? added := getitem commit "added" in
  let? files := extend files added in
  let? modified := getitem commit "modified" in
  let? files := extend files modified in
  let? removed := getitem commit "removed" in
  let? files := extend files removed in
  let? id := getitem commit "id" in
  let? message := getitem commit "message" in
  let? author := getitem commit "author" in
  let? name := getitem author "name" in
  let? w1 := add_str name " <" in
  let? author := getitem commit "author" in
  let? email := getitem author "email" in
  let? w2 := str_add w1 email in
  let? url := getitem commit "url" in
  Ok {| revision := id; comments := message; branch := branch;
        who := w2 ^^ ">"; files := files; links := [url] |}.

(** [process_change] up to the end of the loop: the list [changes]. *)
Definition extract_changes (payload : json) : M (list Change) :=
  newrev <- lift (getitem payload "after") ;;
  refname <- lift (getitem payload "ref") ;;
  refname <- lift (re_subject refname) ;;
  let m := match_branch refname in
  (match m with
   | None =>
       logging INFO (Text ("Ignoring refname `" ^^ refname ^^ "': Not a branch"))
   | Some _ => ret tt
   end) ;;
  branch <- (match m with
             | Some b => ret b
             | None =>
                 raise (Exn AttributeError
                          "'NoneType' object has no attribute 'group'")
             end) ;;
  newrev <- lift (re_subject newrev) ;;
  if match_zeros newrev then
    logging INFO (Text ("Branch `" ^^ branch ^^ "' deleted, ignoring")) ;;
    ret []
  else
    commits <- lift (getitem payload "commits") ;;
    commits <- lift (iterate commits) ;;
    lift (for_each (change_of_commit branch) commits).

(** [process_change] from "Submit the changes, if any": log in and connect,
    leaving [connectFailed] and [connected] on the login deferred. *)
Definition submit_changes (changes : list Change) : M unit :=
  match changes with
  | [] => logging WARNING (Text "No changes found")
  | _ =>
      s <- get_self ;;
      hp <- lift (split_master (master s)) ;;
      let '(host, port) := hp in
      emit (Login "change" "changepw") ;;
      emit (ConnectTCP host port)
  end.

Definition process_change (payload : json) : M unit :=
  changes <- extract_changes payload ;;
  submit_changes changes.

(** ** Delivery: the callbacks on the login deferred *)

Inductive login_outcome : Type :=
| LoggedIn
| LoginFailed (error : string).

(** What a deferred ends with once nothing more can fire. *)
Inductive failure : Type :=
| LoginFailure (error : string)
| RemoteFailure (detail : string)
| LostFailure
| Raised (e : exn).

Inductive deferred : Type :=
| Pending
| Fired
| Failed (f : failure).

Definition exec (c : M unit) (w : World) : World := snd (c w).

Definition connectFailed (error : string) (w : World) : World :=
  exec (logging ERROR (Text ("Could not connect to master: " ^^ error))) w.

(** [change.iteritems()] *)
Definition iteritems (change : Change) : list (string * json) :=
  [("revision", revision change); ("comments", comments change);
   ("branch", JStr (branch change)); ("who", JStr (who change));
   ("files", JArr (files change)); ("links", JArr (links change))].

(** The middle of [addChange]: the record is logged, then handed to
    [remote.callRemote('addChange', change)]. *)
Definition call_remote (change : Change) (prefix : json) (w : World) : World :=
  let w := exec (logging INFO (NewRevision prefix)) w in
  let w := fold_left
             (fun w kv => exec (logging DEBUG (FieldDump (fst kv) (snd kv))) w)
             (iteritems change) w in
  exec (emit (CallRemote change)) w.

(** [addChange(dummy, remote, changei)] together with the callbacks it
    chains: [changei] is what the iterator still holds, [replies] how the
    deferreds of the coming [callRemote]s fire (none left: the deferred
    stays pending).  Only an acknowledgment runs the callback that was
    added to the deferred, [addChange] again; there is no errback.  The
    result is the state the chain ends in. *)
Fixpoint addChange (changei : list Change) (replies : list reply) (w : World)
  : deferred * World :=
  let w := exec (logging DEBUG AddChangeDump) w in
  match changei with
  | [] => (Fired, exec (emit LoseConnection) w)
  | change :: changei' =>
      match slice8 (revision change) with
      | Raise e => (Failed (Raised e), w)
      | Ok prefix =>
          let w := call_remote change prefix w in
          match replies with
          | [] => (Pending, w)
          | Accepted :: replies' =>
              addChange changei' replies' (exec (emit (Reply Accepted)) w)
          | Rejected detail :: _ =>
              (Failed (RemoteFailure detail),
               exec (emit (Reply (Rejected detail))) w)
          | ConnectionLost :: _ =>
              (Failed LostFailure, exec (emit (Reply ConnectionLost)) w)
          end
      end
  end.

Definition connected (changes : list Change) (replies : list reply)
  : World -> deferred * World :=
  addChange changes replies.

(** The login deferred fires: [connectFailed] on the errback side, which
    hands the error on, [connected] on the callback side. *)
Definition login_fires (o : login_outcome) (changes : list Change)
  (replies : list reply) (w : World) : deferred * World :=
  match o with
  | LoginFailed error => (Failed (LoginFailure error), connectFailed error w)
  | LoggedIn => connected changes replies w
  end.

(** ** The endpoint: [render_POST] *)

Record Request : Type := { args : list (string * list string) }.

Fixpoint lookup_arg (k : string) (l : list (string * list string))
  : option (list string) :=
  match l with
  | [] => None
  | (k', v) :: l' => if String.eqb k k' then Some v else lookup_arg k l'
  end.

(** The handler of [render_POST]: the header, then the traceback.  The
    code logs one ERROR record for each line of
    [traceback.format_exception], as many as the call stack gives;
    [TracebackOf e] stands for that run of records. *)
Definition log_exception (e : exn) : M unit :=
  logging ERROR (Text "Encountered an exception:") ;;
  logging ERROR (TracebackOf e).

Section Endpoint.

(** [json.loads], which raises [ValueError] on text that is not JSON. *)
Variable json_loads : string -> result json.

(** The statements before [github_sync]: the payload, [user], [repo]. *)
Definition read_request (request : Request) : M (json * json * json) :=
  payload <- lift (let? values :=
                     match lookup_arg "payload" (args request) with
                     | Some values => Ok values
                     | None => Raise (Exn KeyError "payload")
                     end in
                   match values with
                   | text :: _ => json_loads text
                   | [] => Raise (Exn IndexError "list index out of range")
                   end) ;;
  user <- lift (let? r := getitem payload "repository" in
                let? o := getitem r "owner" in
                getitem o "name") ;;
  repo <- lift (let? r := getitem payload "repository" in
                getitem r "name") ;;
  p <- lift (let? r := getitem payload "repository" in
             getitem r "private") ;;
  set_private p ;;
  logging DEBUG (PayloadDump payload) ;;
  ret (payload, user, repo).

(** The [try] block. *)
Definition render_POST_try (request : Request) : M unit :=
  r <- read_request request ;;
  let '(payload, user, repo) := r in
  s <- get_self ;;
  github_sync (local_dir s) user repo (github s) ;;
  process_change payload.

Definition render_POST (request : Request) : M unit :=
  try_except (render_POST_try request) log_exception.

End Endpoint.

(** ** Reading a session off the network events *)

Definition is_login (e : net_event) : bool :=
  match e with Login _ _ => true | _ => false end.
Definition is_connect (e : net_event) : bool :=
  match e with ConnectTCP _ _ => true | _ => false end.
Definition is_call (e : net_event) : bool :=
  match e with CallRemote _ => true | _ => false end.
Definition is_ack (e : net_event) : bool :=
  match e with Reply Accepted => true | _ => false end.
Definition is_close (e : net_event) : bool :=
  match e with LoseConnection => true | _ => false end.

Definition count_events (f : net_event -> bool) (tr : list net_event) : nat :=
  length (filter f tr).

(** The records handed to [callRemote], in order. *)
Fixpoint sent (tr : list net_event) : list Change :=
  match tr with
  | [] => []
  | CallRemote c :: tr' => c :: sent tr'
  | _ :: tr' => sent tr'
  end.

Definition is_error (entry : level * logmsg) : bool :=
  match fst entry with ERROR => true | _ => false end.

(** The messages logged at level ERROR. *)
Definition errors (w : World) : list logmsg :=
  map snd (filter is_error (logs w)).

(** The traces [addChange] can leave for the records [changei] still to
    deliver: every record but the last one sent has been acknowledged. *)
Inductive session : list Change -> list net_event -> Prop :=
| session_done : session [] [LoseConnection]
| session_raised c cs : session (c :: cs) []
| session_pending c cs : session (c :: cs) [CallRemote c]
| session_failed c cs r :
    r <> Accepted -> session (c :: cs) [CallRemote c; Reply r]
| session_acked c cs tr :
    session cs tr ->
    session (c :: cs) (CallRemote c :: Reply Accepted :: tr).

(** Record [i+1] is sent only once record [i] is acknowledged: whenever a
    record goes out, it is the next one of the batch and every record sent
    before it has been acknowledged. *)
Definition strictly_sequential (changes : list Change) (tr : list net_event)
  : Prop :=
  forall pre c post,
    tr = pre ++ CallRemote c :: post ->
    nth_error changes (count_events is_call pre) = Some c /\
    count_events is_ack pre = count_events is_call pre.

(** A computation that does nothing on the network. *)
Definition keeps_net {A} (c : M A) : Prop :=
  forall w, net (snd (c w)) = net w.

(** Where [github_sync] keeps the mirror of the repository [repo]. *)
Definition mirror_path (tmp repo : string) : string :=
  ((tmp ^^ "/") ^^ repo) ^^ ".git".

(** ** Words of the specification *)

(** A commit descriptor of the payload, with the types the provider
    documents. *)
Record Commit : Type := {
  c_id : string;
  c_message : string;
  c_name : string;
  c_email : string;
  c_url : string;
  c_added : list string;
  c_modified : list string;
  c_removed : list string
}.

(** The object [cj] is a well-formed descriptor of the commit [c]. *)
Definition describes (cj : json) (c : Commit) : Prop :=
  getitem cj "id" = Ok (JStr (c_id c)) /\
  getitem cj "message" = Ok (JStr (c_message c)) /\
  (exists author,
      getitem cj "author" = Ok author /\
      getitem author "name" = Ok (JStr (c_name c)) /\
      getitem author "email" = Ok (JStr (c_email c))) /\
  getitem cj "url" = Ok (JStr (c_url c)) /\
  getitem cj "added" = Ok (JArr (map JStr (c_added c))) /\
  getitem cj "modified" = Ok (JArr (map JStr (c_modified c))) /\
  getitem cj "removed" = Ok (JArr (map JStr (c_removed c))).

(** The record the specification prescribes for the commit [c] pushed to
    [branch]. *)
Definition record_of (branch : string) (c : Commit) : Change :=
  {| revision := JStr (c_id c);
     comments := JStr (c_message c);
     branch := branch;
     who := c_name c ^^ " <" ^^ c_email c ^^ ">";
     files := map JStr (c_added c ++ c_modified c ++ c_removed c);
     links := [JStr (c_url c)] |}.

(** The all-zero revision of [n] digits. *)
Fixpoint zeros (n : nat) : string :=
  match n with
  | O => EmptyString
  | S n' => String "0" (zeros n')
  end.

Definition sliceable (c : Change) : Prop :=
  match revision c with
  | JStr _ | JArr _ => True
  | _ => False
  end.



(** ** Sample inputs *)

Definition sample_bot : GitHubBuildBot :=
  {| github := "github.com"; master := "localhost:9989";
     local_dir := "/tmp"; private := JBool false |}.

Definition quiet_shell : shell_t := fun _ _ f => ((0%Z, ""), f).

Definition failing_shell : shell_t :=
  fun _ _ f => ((256%Z, "fatal: unable to access remote"), f).

(** A machine with [/tmp] and nothing in it. *)
Definition fresh_fs : filesystem :=
  fun p => if String.eqb p "/tmp" then Some Dir else None.

(** The same machine once the mirror of [buildbot] is there. *)
Definition mirrored_fs : filesystem :=
  fun p => if String.eqb p "/tmp/buildbot.git" then Some Dir else fresh_fs p.

Definition world_of (f : filesystem) (sh : shell_t) : World :=
  {| fs := f; cwd := "/"; shell := sh; self := sample_bot;
     logs := []; net := [] |}.

Definition sample_commit (id : string) (added modified removed : list string)
  : json :=
  JObj [("id", JStr id); ("message", JStr "fix bug");
        ("author", JObj [("name", JStr "Ann"); ("email", JStr "ann@x.com")]);
        ("url", JStr ("http://x/" ^^ id));
        ("added", JArr (map JStr added));
        ("modified", JArr (map JStr modified));
        ("removed", JArr (map JStr removed))].

Definition sample_view (id : string) (added modified removed : list string)
  : Commit :=
  {| c_id := id; c_message := "fix bug"; c_name := "Ann";
     c_email := "ann@x.com"; c_url := "http://x/" ^^ id;
     c_added := added; c_modified := modified; c_removed := removed |}.

Definition sample_repository : json :=
  JObj [("name", JStr "buildbot"); ("private", JBool false);
        ("owner", JObj [("name", JStr "ktf")])].

Definition sample_payload (ref after : string) (commits : list json) : json :=
  JObj [("repository", sample_repository); ("ref", JStr ref);
        ("before", JStr "0123456789abcdef0123456789abcdef01234567");
        ("after", JStr after); ("commits", JArr commits)].

Definition sample_change (id : string) : Change :=
  {| revision := JStr id; comments := JStr "fix bug"; branch := "main";
     who := "Ann <ann@x.com>"; files := [JStr "a.py"];
     links := [JStr ("http://x/" ^^ id)] |}.

Definition sample_request : Request := {| args := [("payload", ["{...}"])] |}.

(** ** Further words for the properties of the code *)

(** A string that ends in a newline character and holds no other. *)
Definition newline : string := String LF EmptyString.

Definition one_line (s : string) : Prop :=
  forall c, In c (list_ascii_of_string s) -> c <> LF.

Fixpoint has_colon (s : string) : bool :=
  match s with
  | EmptyString => false
  | String c s' => Ascii.eqb c ":" || has_colon s'
  end.

(** [os.path.isabs(path)] *)
Definition is_absolute (path : string) : bool :=
  match path with
  | String "/" _ => true
  | _ => false
  end.

(** The records whose revision [addChange] can slice. *)
Definition can_slice (c : Change) : bool :=
  match revision c with
  | JStr _ | JArr _ => true
  | _ => false
  end.

Definition is_accepted (r : reply) : bool :=
  match r with
  | Accepted => true
  | _ => false
  end.

(** How many items at the head of a list pass a test. *)
Fixpoint leading {A} (p : A -> bool) (l : list A) : nat :=
  match l with
  | a :: l' => if p a then S (leading p l') else 0
  | [] => 0
  end.

(** A computation that leaves everything but the log as it was. *)
Definition only_logs {A} (c : M A) : Prop :=
  forall w,
    fs (snd (c w)) = fs w /\ cwd (snd (c w)) = cwd w /\
    shell (snd (c w)) = shell w /\ self (snd (c w)) = self w /\
    net (snd (c w)) = net w.

(** * Build results on Twitter (buildbot/status/twitter.py) *)

Module Twitter.

(** A value of the dict the message is formatted with. *)
Inductive fval : Type :=
| FStr (s : string)
| FInt (n : Z).

(** What the module imports: the result codes [SUCCESS], [WARNINGS] and
    [FAILURE] of [buildbot.status.builder], and the [%] operator of
    strings applied to a dict, which may raise. *)
Record Externals : Type := {
  SUCCESS : Z;
  WARNINGS : Z;
  FAILURE : Z;
  format : string -> list (string * fval) -> result string
}.

Inductive error : Type :=
| AssertionError
| UnboundLocalError (name : string)
| NoneHasNoAttribute (name : string)
| NoActiveException
| Reraised (e : exn)
| FormatError (e : exn).

Inductive outcome (A : Type) : Type :=
| Done (a : A)
| Fail (e : error).
Arguments Done {A} a.
Arguments Fail {A} e.

Record Builder : Type := {
  builder_name : string;
  category : option string
}.

(** [ss.revision]: [None], a string or a number. *)
Record SourceStamp : Type := { ss_revision : json }.

Inductive Build : Type := mkBuild {
  getBuilder : Builder;
  getPreviousBuild : option Build;
  getResults : Z;
  getSlavename : string;
  getNumber : Z;
  getSourceStamp : option SourceStamp
}.

Record Status : Type := {
  getProjectName : string;
  getURLForThing : Build -> string
}.

Record TwitterNotifier : Type := {
  twitname : string;
  twitpass : string;
  mode : string;
  message : string;
  categories : option (list string);
  builders : option (list string);
  watched : list Builder;
  status : option Status
}.

(** The Twisted log and the updates handed to [deferToThread] for
    [_sendTwitter]: user, password, text. *)
Record Env : Type := {
  twlog : list string;
  tweets : list (string * string * string)
}.

Definition default_message : string :=
  "%(buildSlave)s reported build %(buildNumber)s as a %(result)s %(buildUrl)s".

(** [x in l] for strings. *)
Definition member (x : string) (l : list string) : bool :=
  existsb (String.eqb x) l.

(** [builder.category in cats]; a builder without category has [None]. *)
Definition category_in (b : Builder) (cats : list string) : bool :=
  match category b with
  | Some c => member c cats
  | None => false
  end.

(** A [raise] without argument: the exception being handled, if there is
    one, else Python 2 raises a [TypeError] of its own. *)
Definition bare_raise (handled : option exn) : error :=
  match handled with
  | Some e => Reraised e
  | None => NoActiveException
  end.

(** [TwitterNotifier.__init__]; [handled] is the exception the caller is
    handling when it builds the notifier, if any. *)
Definition init (twitname twitpass mode : string)
  (categories builders : option (list string)) (message : string)
  (handled : option exn) (env : Env) : outcome TwitterNotifier * Env :=
  if negb (member mode ["all"; "failing"; "problem"]) then
    (Fail AssertionError, env)
  else
    match builders, categories with
    | Some _, Some _ =>
        (Fail (bare_raise handled),
         {| twlog := twlog env ++
              ["Please specify only builders to ignore or categories to include"];
            tweets := tweets env |})
    | _, _ =>
        (Done {| twitname := twitname; twitpass := twitpass; mode := mode;
                 message := message; categories := categories;
                 builders := builders; watched := []; status := None |},
         env)
    end.

(** [setup]: [self.status = self.parent.getStatus()] *)
Definition setup (st : Status) (n : TwitterNotifier) : TwitterNotifier :=
  {| twitname := twitname n; twitpass := twitpass n; mode := mode n;
     message := message n; categories := categories n;
     builders := builders n; watched := watched n; status := Some st |}.

(** [builderAdded(name, builder)]: [true] stands for the [self] it returns
    to subscribe, [false] for [None]. *)
Definition builderAdded (name : string) (builder : Builder)
  (n : TwitterNotifier) : bool * TwitterNotifier :=
  match categories n with
  | Some cats =>
      if negb (category_in builder cats) then (false, n)
      else
        (true,
         {| twitname := twitname n; twitpass := twitpass n; mode := mode n;
            message := message n; categories := categories n;
            builders := builders n; watched := watched n ++ [builder];
            status := status n |})
  | None =>
      (true,
       {| twitname := twitname n; twitpass := twitpass n; mode := mode n;
          message := message n; categories := categories n;
          builders := builders n; watched := watched n ++ [builder];
          status := status n |})
  end.

(** What [buildFinished] returns: [None], or the deferred of
    [buildMessage]. *)
Inductive answer : Type := Ignored | Deferred.

(** The first half of [buildMessage]: the text of [revision]. *)
Definition revision_text (build : Build) : outcome string :=
  match getSourceStamp build with
  | None => Done "unavailable"
  | Some ss =>
      if truthy (ss_revision ss) then Fail (UnboundLocalError "source")
      else Done ("" ^^ "HEAD")
  end.

(** The local [result] after the chain of tests on [results]; [None] when
    it is left unbound. *)
Definition result_text (X : Externals) (results : Z) : option string :=
  if Z.eqb results (SUCCESS X) then Some "success"
  else if Z.eqb results (WARNINGS X) then Some "warnings"
  else None.

Definition buildMessage (X : Externals) (n : TwitterNotifier) (name : string)
  (build : Build) (results : Z) (env : Env) : outcome answer * Env :=
  match status n with
  | None => (Fail (NoneHasNoAttribute "getProjectName"), env)
  | Some st =>
      let projectName := getProjectName st in
      let buildSlave := getSlavename build in
      let buildUrl := getURLForThing st build in
      let buildNumber := getNumber build in
      match revision_text build with
      | Fail e => (Fail e, env)
      | Done revision =>
          match result_text X results with
          | None => (Fail (UnboundLocalError "result"), env)
          | Some result =>
              match format X (message n)
                      [("projectName", FStr projectName);
                       ("buildSlave", FStr buildSlave);
                       ("result", FStr result);
                       ("revision", FStr revision);
                       ("buildUrl", FStr buildUrl);
                       ("buildNumber", FInt buildNumber)] with
              | Raise e => (Fail (FormatError e), env)
              | Ok text =>
                  (Done Deferred,
                   {| twlog := twlog env;
                      tweets := tweets env
                                ++ [(twitname n, twitpass n, text)] |})
              end
          end
      end
  end.

Definition buildFinished (X : Externals) (n : TwitterNotifier) (name : string)
  (build : Build) (results : Z) (env : Env) : outcome answer * Env :=
  let builder := getBuilder build in
  if match builders n with
     | Some l => negb (member name l)
     | None => false
     end
  then (Done Ignored, env)
  else if match categories n with
          | Some cats => negb (category_in builder cats)
          | None => false
          end
  then (Done Ignored, env)
  else if String.eqb (mode n) "failing" && negb (Z.eqb results (FAILURE X))
  then (Done Ignored, env)
  else if String.eqb (mode n) "passing" && negb (Z.eqb results (SUCCESS X))
  then (Done Ignored, env)
  else if String.eqb (mode n) "problem" then
    if negb (Z.eqb results (FAILURE X)) then (Done Ignored, env)
    else
      match getPreviousBuild build with
      | Some prev =>
          if Z.eqb (getResults prev) (FAILURE X) then (Done Ignored, env)
          else buildMessage X n name build results env
      | None => buildMessage X n name build results env
      end
  else buildMessage X n name build results env.

(** The builders a notifier takes when they are announced one by one. *)
Definition interested (n : TwitterNotifier) (b : Builder) : bool :=
  match categories n with
  | Some cats => category_in b cats
  | None => true
  end.

Definition announce (n : TwitterNotifier) (bs : list Builder)
  : TwitterNotifier :=
  fold_left (fun n b => snd (builderAdded (builder_name b) b n)) bs n.

(** Sample values. *)
Definition codes (fmt : string -> list (string * fval) -> result string)
  : Externals :=
  {| SUCCESS := 0; WARNINGS := 1; FAILURE := 2; format := fmt |}.

(** A stand-in for [%] that returns the value of [result]. *)
Definition result_only (_ : string) (d : list (string * fval)) : result string :=
  match d with
  | _ :: _ :: (_, FStr r) :: _ => Ok r
  | _ => Raise (Exn KeyError "result")
  end.

Definition sample_builder : Builder :=
  {| builder_name := "linux"; category := Some "release" |}.

Definition sample_build (prev : option Build) (res : Z)
  (ss : option SourceStamp) : Build :=
  {| getBuilder := sample_builder; getPreviousBuild := prev;
     getResults := res; getSlavename := "slave1"; getNumber := 12;
     getSourceStamp := ss |}.

Definition sample_status : Status :=
  {| getProjectName := "buildbot";
     getURLForThing := fun _ => "http://ci/builders/linux/builds/12" |}.

Definition sample_notifier (md : string) : TwitterNotifier :=
  {| twitname := "bot"; twitpass := "secret"; mode := md;
     message := default_message; categories := None; builders := None;
     watched := []; status := Some sample_status |}.

Definition empty_env : Env := {| twlog := []; tweets := [] |}.

End Twitter.

(** * Properties *)

(** ** Strings and the two patterns *)

Lemma append_assoc (a b c : string) : (a ^^ b) ^^ c = a ^^ b ^^ c.
Proof.
  induction a as [|x a IH]; simpl; [reflexivity | now rewrite IH].
Qed.

Lemma match_zeros_zeros (n : nat) : match_zeros (zeros n) = true.
Proof.
  induction n as [|n IH]; simpl; [reflexivity | exact IH].
Qed.

(** A character other than "0" anywhere but in a closing newline makes
    the revision a live one. *)
Lemma match_zeros_live (n : nat) (c : ascii) (s : string) :
  c <> "0"%char -> c <> LF -> match_zeros (zeros n ^^ String c s) = false.
Proof.
  intros H0 HLF. induction n as [|n IH]; simpl; [|exact IH].
  assert (E : at_end (String c s) = false).
  { simpl. destruct s; [|reflexivity].
    apply Ascii.eqb_neq. exact HLF. }
  destruct c as [[] [] [] [] [] [] [] []]; try exact E.
  exfalso. apply H0. reflexivity.
Qed.

Lemma span_line_clean (name : string) :
  (forall c, In c (list_ascii_of_string name) -> c <> LF) ->
  span_line name = (name, EmptyString).
Proof.
  induction name as [|c name IH]; simpl; intros H; [reflexivity|].
  destruct (Ascii.eqb_spec c LF) as [E|_].
  - exfalso. apply (H c); [now left | exact E].
  - rewrite IH; [reflexivity|]. intros d Hd. apply H. now right.
Qed.

(** The refs the pattern accepts include every [refs/heads/<name>] with a
    non-empty one-line name, and the group is that name. *)
Lemma match_branch_heads (name : string) :
  name <> EmptyString ->
  (forall c, In c (list_ascii_of_string name) -> c <> LF) ->
  match_branch ("refs/heads/" ^^ name) = Some name.
Proof.
  intros Hne Hclean. unfold match_branch. simpl.
  rewrite (span_line_clean name Hclean).
  destruct name; [congruence | reflexivity].
Qed.

Lemma strip_prefix_append (p s rest : string) :
  strip_prefix p s = Some rest -> s = p ^^ rest.
Proof.
  revert s. induction p as [|a p IH]; simpl; intros s H.
  - congruence.
  - destruct s as [|b s]; [discriminate|].
    destruct (Ascii.eqb_spec a b) as [->|]; [|discriminate].
    now rewrite (IH _ H).
Qed.

(** Whatever the pattern accepts starts with [refs/heads/]. *)
Lemma match_branch_shape (refname name : string) :
  match_branch refname = Some name ->
  exists tail, refname = "refs/heads/" ^^ name ^^ tail /\ name <> EmptyString.
Proof.
  unfold match_branch. intros H.
  destruct (strip_prefix "refs/heads/" refname) as [rest|] eqn:E;
    [|discriminate].
  apply strip_prefix_append in E. subst refname.
  assert (S : forall s l r, span_line s = (l, r) -> s = l ^^ r).
  { clear. induction s as [|c s IH]; simpl; intros l r H.
    - now inversion H.
    - destruct (Ascii.eqb c LF).
      + now inversion H.
      + destruct (span_line s) as [l' r']. inversion H; subst. simpl.
        now rewrite (IH l' r). }
  destruct (span_line rest) as [l r] eqn:E.
  apply S in E. subst rest.
  destruct l as [|c l]; [discriminate|].
  destruct (at_end r); [|discriminate].
  inversion H; subst. exists r. split; [reflexivity | discriminate].
Qed.

(** ** What leaves the world alone *)

Lemma logging_frame l m w :
  let w' := snd (logging l m w) in
  fst (logging l m w) = Ok tt /\
  fs w' = fs w /\ cwd w' = cwd w /\ shell w' = shell w /\ self w' = self w /\
  net w' = net w /\ logs w' = logs w ++ [(l, m)].
Proof. simpl. repeat split. Qed.

Lemma errors_logging l m w :
  l <> ERROR -> errors (exec (logging l m) w) = errors w.
Proof.
  intros H. unfold errors, exec. simpl. rewrite filter_app, map_app. simpl.
  destruct l; simpl; try now rewrite app_nil_r. congruence.
Qed.

Lemma errors_emit e w : errors (exec (emit e) w) = errors w.
Proof. reflexivity. Qed.

(** ** Extraction *)

Lemma change_of_commit_described (b : string) (cj : json) (c : Commit) :
  describes cj c -> change_of_commit b cj = Ok (record_of b c).
Proof.
  intros (Hid & Hmsg & (author & Hau & Hname & Hemail) & Hurl & Ha & Hm & Hr).
  unfold change_of_commit, extend.
  rewrite Ha, Hm, Hr, Hid, Hmsg, Hau. simpl.
  rewrite Hname. simpl. rewrite Hemail. simpl. rewrite Hurl. simpl.
  unfold record_of. f_equal. f_equal.
  - now rewrite !append_assoc.
  - now rewrite !map_app, app_assoc.
Qed.

Lemma for_each_described (b : string) (cjs : list json) (cs : list Commit) :
  Forall2 describes cjs cs ->
  for_each (change_of_commit b) cjs = Ok (map (record_of b) cs).
Proof.
  induction 1 as [|cj c cjs cs Hd _ IH]; simpl; [reflexivity|].
  now rewrite (change_of_commit_described b cj c Hd), IH.
Qed.

Lemma extract_changes_described payload w refname b newrev cjs cs :
  getitem payload "ref" = Ok (JStr refname) ->
  match_branch refname = Some b ->
  getitem payload "after" = Ok (JStr newrev) ->
  match_zeros newrev = false ->
  getitem payload "commits" = Ok (JArr cjs) ->
  Forall2 describes cjs cs ->
  extract_changes payload w = (Ok (map (record_of b) cs), w).
Proof.
  intros Href Hb Hafter Hlive Hcommits Hd.
  unfold extract_changes, bind, lift, ret.
  rewrite Hafter, Href. simpl. rewrite Hb. simpl. rewrite Hlive.
  rewrite Hcommits. simpl. now rewrite (for_each_described b cjs cs Hd).
Qed.

(** A ref the pattern rejects: the refusal is logged, then [match.group]
    is called on [None]. *)
Lemma extract_changes_not_branch payload w newrev refname :
  getitem payload "after" = Ok newrev ->
  getitem payload "ref" = Ok (JStr refname) ->
  match_branch refname = None ->
  extract_changes payload w =
    (Raise (Exn AttributeError "'NoneType' object has no attribute 'group'"),
     exec (logging INFO
             (Text ("Ignoring refname `" ^^ refname ^^ "': Not a branch"))) w).
Proof.
  intros Hafter Href Hno.
  unfold extract_changes, bind, lift, raise, exec.
  rewrite Hafter, Href. simpl. rewrite Hno. reflexivity.
Qed.

(** C1, at the push of a tag: [process_change] does not come back with
    nothing to deliver, it raises [AttributeError] from [match.group(1)],
    right after logging that the ref is ignored. *)
Theorem process_change_tag_ref_raises :
  let payload := sample_payload "refs/tags/v1.0"
                   "9fceb02d0ae598e95dc970b74767f19372d61af8"
                   [sample_commit "9fceb02" ["a.py"] [] []] in
  let w := world_of mirrored_fs quiet_shell in
  match_branch "refs/tags/v1.0" = None /\
  process_change payload w =
    (Raise (Exn AttributeError "'NoneType' object has no attribute 'group'"),
     exec (logging INFO
             (Text "Ignoring refname `refs/tags/v1.0': Not a branch")) w).
Proof. split; reflexivity. Qed.

(** C5: a payload on an accepted branch ref, with a live [after] and N
    well-formed commits, yields N records in the order of [commits]; the
    record of a commit has its id as revision, "name <email>" as author and
    the one-element list of its URL as links. *)
Theorem extraction_keeps_commits_in_order
  payload w refname b newrev cjs cs :
  getitem payload "ref" = Ok (JStr refname) ->
  match_branch refname = Some b ->
  getitem payload "after" = Ok (JStr newrev) ->
  match_zeros newrev = false ->
  getitem payload "commits" = Ok (JArr cjs) ->
  Forall2 describes cjs cs ->
  exists changes,
    extract_changes payload w = (Ok changes, w) /\
    length changes = length cjs /\
    Forall2 (fun c r =>
               revision r = JStr (c_id c) /\
               branch r = b /\
               who r = c_name c ^^ " <" ^^ c_email c ^^ ">" /\
               links r = [JStr (c_url c)])
            cs changes.
Proof.
  intros Href Hb Hafter Hlive Hcommits Hd.
  exists (map (record_of b) cs). split; [|split].
  - eapply extract_changes_described; eassumption.
  - rewrite length_map. symmetry. eapply Forall2_length. exact Hd.
  - clear. induction cs as [|c cs IH]; simpl; constructor; auto.
Qed.

Lemma sample_commit_described id added modified removed :
  describes (sample_commit id added modified removed)
            (sample_view id added modified removed).
Proof.
  unfold describes. simpl. repeat split.
  exists (JObj [("name", JStr "Ann"); ("email", JStr "ann@x.com")]).
  repeat split.
Defined.

Lemma extraction_keeps_commits_in_order_witness :
  let cjs := [sample_commit "c1" ["a.py"] [] [];
              sample_commit "c2" [] ["a.py"; "b.py"] ["c.py"]] in
  let cs := [sample_view "c1" ["a.py"] [] [];
             sample_view "c2" [] ["a.py"; "b.py"] ["c.py"]] in
  let w := world_of mirrored_fs quiet_shell in
  exists changes,
    extract_changes (sample_payload "refs/heads/main" "abc123" cjs) w
      = (Ok changes, w) /\
    length changes = length cjs /\
    Forall2 (fun c r =>
               revision r = JStr (c_id c) /\
               branch r = "main" /\
               who r = c_name c ^^ " <" ^^ c_email c ^^ ">" /\
               links r = [JStr (c_url c)])
            cs changes.
Proof.
  intros cjs cs w.
  apply (extraction_keeps_commits_in_order
           (sample_payload "refs/heads/main" "abc123" cjs) w
           "refs/heads/main" "main" "abc123" cjs cs);
    try reflexivity.
  repeat constructor; apply sample_commit_described.
Defined.

(** C6, as stated, fails: a path that a commit lists both as added and as
    modified is twice in [files]. *)
Lemma files_repeat_a_shared_path :
  let payload := sample_payload "refs/heads/main" "abc123"
                   [sample_commit "c1" ["a.py"] ["a.py"] []] in
  let w := world_of mirrored_fs quiet_shell in
  exists r,
    extract_changes payload w = (Ok [r], w) /\
    files r = [JStr "a.py"; JStr "a.py"] /\
    ~ NoDup (files r).
Proof.
  eexists. split; [reflexivity|]. split; [reflexivity|].
  simpl. intros H. inversion H as [|x l Hin _]. apply Hin. now left.
Qed.

(** C6, amended: [files] is the added, modified and removed lists one
    after the other, so its members are those of the union and a path
    stands in it once for each occurrence in the three lists. *)
Theorem files_are_the_three_lists_appended
  payload w refname b newrev cjs cs :
  getitem payload "ref" = Ok (JStr refname) ->
  match_branch refname = Some b ->
  getitem payload "after" = Ok (JStr newrev) ->
  match_zeros newrev = false ->
  getitem payload "commits" = Ok (JArr cjs) ->
  Forall2 describes cjs cs ->
  exists changes,
    extract_changes payload w = (Ok changes, w) /\
    Forall2 (fun c r =>
               files r = map JStr (c_added c) ++ map JStr (c_modified c)
                           ++ map JStr (c_removed c) /\
               (forall p, In (JStr p) (files r) <->
                          In p (c_added c) \/ In p (c_modified c)
                          \/ In p (c_removed c)) /\
               (forall p, count_occ string_dec
                            (c_added c ++ c_modified c ++ c_removed c) p =
                          count_occ string_dec (c_added c) p
                          + count_occ string_dec (c_modified c) p
                          + count_occ string_dec (c_removed c) p)%nat)
            cs changes.
Proof.
  intros Href Hb Hafter Hlive Hcommits Hd.
  exists (map (record_of b) cs). split.
  - eapply extract_changes_described; eassumption.
  - clear. induction cs as [|c cs IH]; simpl; constructor; auto.
    simpl. split; [|split].
    + now rewrite !map_app.
    + intros p. rewrite in_map_iff. split.
      * intros (q & E & Hin). inversion E; subst.
        rewrite !in_app_iff in Hin. tauto.
      * intros H. exists p. split; [reflexivity|].
        rewrite !in_app_iff. tauto.
    + intros p. rewrite !count_occ_app. lia.
Qed.

Lemma files_are_the_three_lists_appended_witness :
  let cjs := [sample_commit "c1" ["a.py"] ["a.py"] ["b.py"]] in
  let cs := [sample_view "c1" ["a.py"] ["a.py"] ["b.py"]] in
  let w := world_of mirrored_fs quiet_shell in
  exists changes,
    extract_changes (sample_payload "refs/heads/main" "abc123" cjs) w
      = (Ok changes, w) /\
    Forall2 (fun c r =>
               files r = map JStr (c_added c) ++ map JStr (c_modified c)
                           ++ map JStr (c_removed c) /\
               (forall p, In (JStr p) (files r) <->
                          In p (c_added c) \/ In p (c_modified c)
                          \/ In p (c_removed c)) /\
               (forall p, count_occ string_dec
                            (c_added c ++ c_modified c ++ c_removed c) p =
                          count_occ string_dec (c_added c) p
                          + count_occ string_dec (c_modified c) p
                          + count_occ string_dec (c_removed c) p)%nat)
            cs changes.
Proof.
  intros cjs cs w.
  apply (files_are_the_three_lists_appended
           (sample_payload "refs/heads/main" "abc123" cjs) w
           "refs/heads/main" "main" "abc123" cjs cs);
    try reflexivity.
  repeat constructor; apply sample_commit_described.
Defined.

(** The deletion of a branch: on a ref the branch pattern accepts, an
    all-zero [after] gives no ChangeRecord whatever [commits] holds (or
    lacks), and [process_change] returns after its warning without a login
    or a connection. *)
Theorem deleted_branch_yields_nothing payload w refname b n :
  getitem payload "ref" = Ok (JStr refname) ->
  match_branch refname = Some b ->
  getitem payload "after" = Ok (JStr (zeros n)) ->
  let w1 := exec (logging INFO
                    (Text ("Branch `" ^^ b ^^ "' deleted, ignoring"))) w in
  let w2 := exec (logging WARNING (Text "No changes found")) w1 in
  extract_changes payload w = (Ok [], w1) /\
  process_change payload w = (Ok tt, w2) /\
  net w2 = net w /\
  count_events is_connect (net w2) = count_events is_connect (net w).
Proof.
  intros Href Hb Hafter w1 w2.
  assert (E : extract_changes payload w = (Ok [], w1)).
  { unfold extract_changes, bind, lift, ret.
    rewrite Hafter, Href. simpl. rewrite Hb. simpl.
    now rewrite match_zeros_zeros. }
  split; [exact E|]. split; [|split; reflexivity].
  unfold process_change, bind. now rewrite E.
Qed.

Lemma deleted_branch_yields_nothing_witness :
  let payload := sample_payload "refs/heads/old" (zeros 40)
                   [sample_commit "c1" ["a.py"] [] []; JNum 7] in
  let w := world_of mirrored_fs quiet_shell in
  let w1 := exec (logging INFO (Text "Branch `old' deleted, ignoring")) w in
  let w2 := exec (logging WARNING (Text "No changes found")) w1 in
  extract_changes payload w = (Ok [], w1) /\
  process_change payload w = (Ok tt, w2) /\
  net w2 = net w /\
  count_events is_connect (net w2) = count_events is_connect (net w).
Proof.
  intros payload w.
  apply (deleted_branch_yields_nothing payload w "refs/heads/old" "old" 40);
    reflexivity.
Defined.

(** C7, at the deletion of a tag: [after] is all zeros, yet extraction
    does not come back empty.  The ref is refused first, and with the
    return missing after that log line, [match.group(1)] raises
    [AttributeError] before [after] is looked at; the deletion test is
    never reached.  No login or connect is made in this case either. *)
Theorem process_change_tag_deletion_raises :
  let payload := sample_payload "refs/tags/v1.0" (zeros 40) [] in
  let w := world_of mirrored_fs quiet_shell in
  let e := Exn AttributeError "'NoneType' object has no attribute 'group'" in
  let w' := exec (logging INFO
                    (Text "Ignoring refname `refs/tags/v1.0': Not a branch"))
              w in
  getitem payload "after" = Ok (JStr (zeros 40)) /\
  match_zeros (zeros 40) = true /\
  extract_changes payload w = (Raise e, w') /\
  process_change payload w = (Raise e, w') /\
  net w' = net w.
Proof. repeat split. Qed.

(** ** Delivery *)

Lemma call_remote_net c p w : net (call_remote c p w) = net w ++ [CallRemote c].
Proof. reflexivity. Qed.

Lemma call_remote_errors c p w : errors (call_remote c p w) = errors w.
Proof.
  unfold call_remote. rewrite errors_emit. simpl.
  repeat (rewrite errors_logging; [|discriminate]). reflexivity.
Qed.

Lemma addChange_cons c cs replies w :
  addChange (c :: cs) replies w =
    let w0 := exec (logging DEBUG AddChangeDump) w in
    match slice8 (revision c) with
    | Raise e => (Failed (Raised e), w0)
    | Ok prefix =>
        let w1 := call_remote c prefix w0 in
        match replies with
        | [] => (Pending, w1)
        | Accepted :: replies' =>
            addChange cs replies' (exec (emit (Reply Accepted)) w1)
        | Rejected detail :: _ =>
            (Failed (RemoteFailure detail),
             exec (emit (Reply (Rejected detail))) w1)
        | ConnectionLost :: _ =>
            (Failed LostFailure, exec (emit (Reply ConnectionLost)) w1)
        end
    end.
Proof. reflexivity. Qed.

Ltac errors_unchanged :=
  simpl fst; simpl snd;
  repeat first [ rewrite errors_emit
               | rewrite call_remote_errors
               | rewrite errors_logging by discriminate ];
  try reflexivity.

(** Every run of [addChange] leaves a [session] behind, logs no error, and
    closes the connection once if the chain fires to its end and not at all
    otherwise. *)
Lemma addChange_session changei :
  forall replies w,
  exists tr,
    net (snd (addChange changei replies w)) = net w ++ tr /\
    session changei tr /\
    errors (snd (addChange changei replies w)) = errors w /\
    count_events is_close tr =
      match fst (addChange changei replies w) with Fired => 1 | _ => 0 end.
Proof.
  induction changei as [|c cs IH]; intros replies w.
  - exists [LoseConnection]. simpl addChange.
    split; [reflexivity|]. split; [constructor|].
    split; [errors_unchanged | reflexivity].
  - rewrite addChange_cons. cbv zeta.
    destruct (slice8 (revision c)) as [p|e].
    + destruct replies as [|[|detail|] replies'].
      * exists [CallRemote c].
        split; [reflexivity|]. split; [constructor|].
        split; [errors_unchanged | reflexivity].
      * destruct (IH replies'
                    (exec (emit (Reply Accepted))
                       (call_remote c p
                          (exec (logging DEBUG AddChangeDump) w))))
          as (tr & Hnet & Hs & Herr & Hclose).
        exists (CallRemote c :: Reply Accepted :: tr).
        rewrite Hnet, Herr.
        split; [simpl; now rewrite <- !app_assoc|].
        split; [now constructor|].
        split; [errors_unchanged | exact Hclose].
      * exists [CallRemote c; Reply (Rejected detail)].
        split; [simpl; now rewrite <- !app_assoc|].
        split; [constructor; discriminate|].
        split; [errors_unchanged | reflexivity].
      * exists [CallRemote c; Reply ConnectionLost].
        split; [simpl; now rewrite <- !app_assoc|].
        split; [constructor; discriminate|].
        split; [errors_unchanged | reflexivity].
    + exists []. simpl fst. simpl snd. rewrite app_nil_r.
      split; [reflexivity|]. split; [constructor|].
      split; [errors_unchanged | reflexivity].
Qed.

Lemma session_no_setup cs tr :
  session cs tr ->
  count_events is_login tr = 0 /\ count_events is_connect tr = 0.
Proof.
  induction 1 as [| | | |c cs tr _ IH]; try (split; reflexivity).
  exact IH.
Qed.

Lemma session_sequential cs tr :
  session cs tr -> strictly_sequential cs tr.
Proof.
  unfold strictly_sequential.
  induction 1 as [| | |c cs r Hr|c cs tr _ IH]; intros pre c0 post E.
  - destruct pre as [|x [|y pre]]; discriminate.
  - destruct pre; discriminate.
  - destruct pre as [|x [|y pre]]; try discriminate.
    inversion E; subst. split; reflexivity.
  - destruct pre as [|x [|y [|z pre]]]; try discriminate.
    inversion E; subst. split; reflexivity.
  - destruct pre as [|x [|y pre]].
    + inversion E; subst. split; reflexivity.
    + discriminate.
    + inversion E; subst. destruct (IH pre c0 post eq_refl) as [Hn Hc].
      unfold count_events in *. simpl. split; [exact Hn | now rewrite Hc].
Qed.

Lemma sequential_after_setup changes u p h n tr :
  strictly_sequential changes tr ->
  strictly_sequential changes (Login u p :: ConnectTCP h n :: tr).
Proof.
  unfold strictly_sequential. intros H pre c post E.
  destruct pre as [|x [|y pre]]; try discriminate.
  inversion E; subst. exact (H pre c post eq_refl).
Qed.

Lemma submit_changes_connects c cs w host port :
  split_master (master (self w)) = Ok (host, port) ->
  submit_changes (c :: cs) w =
    (Ok tt, exec (emit (ConnectTCP host port))
              (exec (emit (Login "change" "changepw")) w)).
Proof.
  intros H. unfold submit_changes, bind, get_self, lift. now rewrite H.
Qed.

Lemma can_slice_slice8 c :
  (can_slice c = true /\ exists p, slice8 (revision c) = Ok p) \/
  (can_slice c = false /\ exists e, slice8 (revision c) = Raise e).
Proof.
  unfold can_slice, slice8.
  destruct (revision c); try (right; split; [reflexivity | eexists; reflexivity]);
    left; split; try reflexivity; eexists; reflexivity.
Qed.

(** Which records go out: the first one as soon as [addChange] runs, the
    next one after each acknowledgment, up to the first record that cannot
    be sliced and to the end of the batch. *)
Lemma addChange_sent changei :
  forall replies w,
  exists tr,
    net (snd (addChange changei replies w)) = net w ++ tr /\
    sent tr = firstn (Nat.min (S (leading is_accepted replies))
                              (leading can_slice changei)) changei /\
    count_events is_ack tr =
      Nat.min (leading is_accepted replies) (leading can_slice changei).
Proof.
  induction changei as [|c cs IH]; intros replies w.
  - exists [LoseConnection]. simpl addChange.
    split; [reflexivity|]. split.
    + now rewrite firstn_nil.
    + simpl leading. now rewrite Nat.min_0_r.
  - rewrite addChange_cons. cbv zeta. simpl leading.
    destruct (can_slice_slice8 c) as [(-> & p & ->) | (-> & e & ->)].
    + destruct replies as [|[|detail|] replies'].
      * exists [CallRemote c]. repeat split.
      * match goal with |- context [addChange cs replies' ?w'] =>
          destruct (IH replies' w') as (tr & Hnet & Hsent & Hack) end.
        exists (CallRemote c :: Reply Accepted :: tr). rewrite Hnet.
        split; [simpl; now rewrite <- !app_assoc|].
        split.
        -- simpl. now rewrite Hsent.
        -- unfold count_events in *. simpl. now rewrite Hack.
      * exists [CallRemote c; Reply (Rejected detail)].
        split; [simpl; now rewrite <- !app_assoc|]. split; reflexivity.
      * exists [CallRemote c; Reply ConnectionLost].
        split; [simpl; now rewrite <- !app_assoc|]. split; reflexivity.
    + exists []. simpl fst. simpl snd. rewrite app_nil_r.
      split; [reflexivity|]. rewrite !Nat.min_0_r. split; reflexivity.
Qed.

(** C2: a non-empty batch is delivered over one connection and one login,
    made before anything else, and however the login and the remote calls
    turn out, a record goes out only as the next one of the batch, after
    every record sent before it has been acknowledged.  Once logged in, the
    records do go out: the first at once, the next after each
    acknowledgment, as far as the acknowledgments and the batch reach
    (a record whose revision cannot be sliced ends it), so that a batch
    acknowledged throughout is transmitted whole and in order; a failed
    login sends none. *)
Theorem delivery_is_one_sequential_session changes w o replies host port :
  changes <> [] ->
  split_master (master (self w)) = Ok (host, port) ->
  exists w1 tr,
    submit_changes changes w = (Ok tt, w1) /\
    net (snd (login_fires o changes replies w1)) =
      net w ++ Login "change" "changepw" :: ConnectTCP host port :: tr /\
    count_events is_connect tr = 0 /\
    count_events is_login tr = 0 /\
    strictly_sequential changes
      (Login "change" "changepw" :: ConnectTCP host port :: tr) /\
    (o = LoggedIn ->
     sent tr = firstn (Nat.min (S (leading is_accepted replies))
                               (leading can_slice changes)) changes /\
     count_events is_ack tr =
       Nat.min (leading is_accepted replies) (leading can_slice changes)) /\
    (o = LoggedIn ->
     leading can_slice changes = length changes ->
     length changes <= S (leading is_accepted replies) ->
     sent tr = changes) /\
    (forall error, o = LoginFailed error -> tr = []).
Proof.
  intros Hne Hm. destruct changes as [|c cs]; [congruence|].
  set (w1 := exec (emit (ConnectTCP host port))
               (exec (emit (Login "change" "changepw")) w)).
  exists w1. rewrite (submit_changes_connects c cs w host port Hm).
  destruct o as [|error].
  - destruct (addChange_session (c :: cs) replies w1)
      as (tr & Hnet & Hs & _ & _).
    destruct (addChange_sent (c :: cs) replies w1)
      as (tr' & Hnet' & Hsent & Hack).
    assert (tr' = tr) by
      (apply (app_inv_head (net w1)); now rewrite <- Hnet, <- Hnet').
    subst tr'. exists tr.
    split; [reflexivity|]. split; [|split; [|split; [|split; [|split]]]].
    + unfold login_fires, connected. rewrite Hnet. unfold w1. simpl.
      now rewrite <- !app_assoc.
    + apply (session_no_setup _ _ Hs).
    + apply (session_no_setup _ _ Hs).
    + apply sequential_after_setup, session_sequential, Hs.
    + intros _. split; assumption.
    + split.
      * intros _ Hall Hlen. rewrite Hsent, Hall.
        rewrite Nat.min_r by exact Hlen. apply firstn_all.
      * discriminate.
  - exists []. split; [reflexivity|].
    split; [|split; [|split; [|split; [|split]]]]; try reflexivity.
    + simpl. now rewrite <- !app_assoc.
    + apply sequential_after_setup. intros pre c0 post E.
      destruct pre; discriminate.
    + discriminate.
    + split; [discriminate | reflexivity].
Qed.

Lemma delivery_is_one_sequential_session_witness :
  let changes := [sample_change "c1"; sample_change "c2"; sample_change "c3"] in
  let w := world_of mirrored_fs quiet_shell in
  exists w1 tr,
    submit_changes changes w = (Ok tt, w1) /\
    net (snd (login_fires LoggedIn changes [Accepted; Rejected "full"] w1)) =
      net w ++ Login "change" "changepw" :: ConnectTCP "localhost" 9989 :: tr
    /\
    count_events is_connect tr = 0 /\
    count_events is_login tr = 0 /\
    strictly_sequential changes
      (Login "change" "changepw" :: ConnectTCP "localhost" 9989 :: tr) /\
    (LoggedIn = LoggedIn ->
     sent tr = firstn (Nat.min (S (leading is_accepted
                                     [Accepted; Rejected "full"]))
                               (leading can_slice changes)) changes /\
     count_events is_ack tr =
       Nat.min (leading is_accepted [Accepted; Rejected "full"])
               (leading can_slice changes)) /\
    (LoggedIn = LoggedIn ->
     leading can_slice changes = length changes ->
     length changes <= S (leading is_accepted [Accepted; Rejected "full"]) ->
     sent tr = changes) /\
    (forall error, LoggedIn = LoginFailed error -> tr = []).
Proof.
  intros changes w.
  apply (delivery_is_one_sequential_session changes w LoggedIn
           [Accepted; Rejected "full"] "localhost" 9989%Z).
  - discriminate.
  - reflexivity.
Defined.

Lemma sliceable_slice8 c : sliceable c -> exists p, slice8 (revision c) = Ok p.
Proof.
  unfold sliceable, slice8. destruct (revision c); try contradiction;
    intros _; eexists; reflexivity.
Qed.

Lemma sent_app tr1 tr2 : sent (tr1 ++ tr2) = sent tr1 ++ sent tr2.
Proof.
  induction tr1 as [|e tr1 IH]; simpl; [reflexivity|].
  destruct e; simpl; now rewrite IH.
Qed.

(** Every record acknowledged: the chain fires to its end, the whole batch
    has gone out, and the close comes last. *)
Lemma addChange_all_accepted changes :
  Forall sliceable changes ->
  forall extra w,
    fst (addChange changes (repeat Accepted (length changes) ++ extra) w)
      = Fired /\
    exists tr,
      net (snd (addChange changes
                  (repeat Accepted (length changes) ++ extra) w))
        = net w ++ tr ++ [LoseConnection] /\
      sent tr = changes /\
      count_events is_close tr = 0.
Proof.
  induction 1 as [|c cs Hc _ IH]; intros extra w.
  - split; [reflexivity|]. exists []. repeat split.
  - rewrite addChange_cons. cbv zeta.
    destruct (sliceable_slice8 c Hc) as [p ->]. simpl repeat. simpl app.
    match goal with |- context [addChange cs _ ?w'] =>
      destruct (IH extra w') as (Hf & tr & Hnet & Hsent & Hclose) end.
    split; [exact Hf|].
    exists (CallRemote c :: Reply Accepted :: tr). rewrite Hnet.
    split; [simpl; now rewrite <- !app_assoc|].
    split; [simpl; now rewrite Hsent | exact Hclose].
Qed.

(** A reply other than an acknowledgment inside the batch: the chain never
    fires to its end. *)
Lemma addChange_aborts changes :
  forall k r rest w,
    k < length changes -> r <> Accepted ->
    fst (addChange changes (repeat Accepted k ++ r :: rest) w) <> Fired.
Proof.
  induction changes as [|c cs IH]; intros k r rest w Hk Hr; simpl in Hk;
    [lia|].
  rewrite addChange_cons. cbv zeta.
  destruct (slice8 (revision c)) as [p|e]; [|discriminate].
  destruct k as [|k]; simpl repeat; simpl app.
  - destruct r; [congruence | discriminate | discriminate].
  - apply IH; [lia | exact Hr].
Qed.

(** Record [r] rejected after the records [pre] were acknowledged: [r] is
    the last record sent and the chain ends in the remote failure. *)
Lemma addChange_rejected pre r post detail rest :
  Forall sliceable (pre ++ [r]) ->
  forall w,
    fst (addChange (pre ++ r :: post)
           (repeat Accepted (length pre) ++ Rejected detail :: rest) w)
      = Failed (RemoteFailure detail) /\
    exists tr,
      net (snd (addChange (pre ++ r :: post)
                  (repeat Accepted (length pre) ++ Rejected detail :: rest) w))
        = net w ++ tr /\
      sent tr = pre ++ [r].
Proof.
  induction pre as [|c pre IH]; intros Hs w; simpl app in *.
  - inversion Hs as [|x l Hr _]; subst.
    simpl repeat. simpl app. rewrite addChange_cons. cbv zeta.
    destruct (sliceable_slice8 r Hr) as [p ->].
    split; [reflexivity|].
    exists [CallRemote r; Reply (Rejected detail)].
    split; [simpl; now rewrite <- !app_assoc | reflexivity].
  - inversion Hs as [|x l Hc Hs']; subst.
    simpl length. simpl repeat. simpl app. rewrite addChange_cons. cbv zeta.
    destruct (sliceable_slice8 c Hc) as [p ->].
    match goal with |- context [addChange _ _ ?w'] =>
      destruct (IH Hs' w') as (Hf & tr & Hnet & Hsent) end.
    split; [exact Hf|].
    exists (CallRemote c :: Reply Accepted :: tr). rewrite Hnet.
    split; [simpl; now rewrite <- !app_assoc | simpl; now rewrite Hsent].
Qed.

(** C3, as stated, fails: when the buildmaster rejects a record, or the
    connection drops under a call, the chain stops with the failure and
    [loseConnection] is never called. *)
Lemma aborted_batch_is_never_closed :
  let changes := [sample_change "c1"; sample_change "c2"] in
  let w1 := snd (submit_changes changes (world_of mirrored_fs quiet_shell)) in
  let rejected := login_fires LoggedIn changes [Accepted; Rejected "boom"] w1 in
  let lost := login_fires LoggedIn changes [ConnectionLost] w1 in
  fst rejected = Failed (RemoteFailure "boom") /\
  count_events is_close (net (snd rejected)) = 0 /\
  fst lost = Failed LostFailure /\
  count_events is_close (net (snd lost)) = 0.
Proof. repeat split. Qed.

(** C3, amended: the client closes the connection exactly once when the
    callback chain fires to its end, which it does after the last record is
    acknowledged, and never otherwise; a batch that aborts on a rejection
    or a lost connection is left without a close. *)
Theorem connection_closed_only_when_batch_completes changes w host port :
  changes <> [] ->
  split_master (master (self w)) = Ok (host, port) ->
  let w1 := snd (submit_changes changes w) in
  (forall o replies,
      exists tr,
        net (snd (login_fires o changes replies w1)) = net w ++ tr /\
        count_events is_close tr =
          match fst (login_fires o changes replies w1) with
          | Fired => 1
          | _ => 0
          end) /\
  (Forall sliceable changes ->
   forall extra,
     let all := repeat Accepted (length changes) ++ extra in
     fst (login_fires LoggedIn changes all w1) = Fired /\
     exists tr,
       net (snd (login_fires LoggedIn changes all w1))
         = net w ++ tr ++ [LoseConnection] /\
       sent tr = changes) /\
  (forall k r rest,
      k < length changes -> r <> Accepted ->
      fst (login_fires LoggedIn changes (repeat Accepted k ++ r :: rest) w1)
        <> Fired).
Proof.
  intros Hne Hm. destruct changes as [|c cs]; [congruence|].
  rewrite (submit_changes_connects c cs w host port Hm). cbn [snd].
  split; [|split].
  - intros [|error] replies.
    + match goal with |- context [login_fires _ _ _ ?w'] =>
        destruct (addChange_session (c :: cs) replies w')
          as (tr & Hnet & _ & _ & Hclose) end.
      exists (Login "change" "changepw" :: ConnectTCP host port :: tr).
      unfold login_fires, connected. rewrite Hnet.
      split; [simpl; now rewrite <- !app_assoc | exact Hclose].
    + exists [Login "change" "changepw"; ConnectTCP host port].
      split; [simpl; now rewrite <- !app_assoc | reflexivity].
  - intros Hs extra. unfold login_fires, connected.
    match goal with |- context [addChange _ _ ?w'] =>
      destruct (addChange_all_accepted (c :: cs) Hs extra w')
        as (Hf & tr & Hnet & Hsent & _) end.
    split; [exact Hf|].
    exists (Login "change" "changepw" :: ConnectTCP host port :: tr).
    rewrite Hnet.
    split; [simpl; now rewrite <- !app_assoc | exact Hsent].
  - intros k r rest Hk Hr. now apply addChange_aborts.
Qed.

Lemma connection_closed_only_when_batch_completes_witness :
  let changes := [sample_change "c1"; sample_change "c2"] in
  let w := world_of mirrored_fs quiet_shell in
  let w1 := snd (submit_changes changes w) in
  fst (login_fires LoggedIn changes [Accepted; Accepted] w1) = Fired /\
  fst (login_fires LoggedIn changes [Accepted; ConnectionLost] w1) <> Fired.
Proof.
  intros changes w w1.
  destruct (connection_closed_only_when_batch_completes
              changes w "localhost" 9989%Z) as (_ & Hall & Habort).
  - discriminate.
  - reflexivity.
  - split.
    + apply (fun Hs => proj1 (Hall Hs [])). repeat constructor.
    + apply (Habort 1 ConnectionLost []); [simpl; lia | discriminate].
Defined.

(** C4, as stated, fails: after a rejection nothing is logged as an error
    and the failure the chain ends in holds the remote detail alone, so no
    report names the rejected record. *)
Lemma rejection_is_not_reported :
  let changes := [sample_change "c1"; sample_change "c2"] in
  let w1 := snd (submit_changes changes (world_of mirrored_fs quiet_shell)) in
  let res := login_fires LoggedIn changes [Accepted; Rejected "boom"] w1 in
  fst res = Failed (RemoteFailure "boom") /\
  ~ (exists m, In (ERROR, m) (logs (snd res))).
Proof.
  split; [reflexivity|]. intros (m & H). simpl in H.
  repeat (destruct H as [H|H]; [discriminate|]). exact H.
Qed.

(** C4, amended: when record k is rejected after the records before it were
    acknowledged, record k is the last one sent, so the records after it
    are never transmitted; the chain ends in a failure that carries the
    remote detail, and the client logs no error for the batch. *)
Theorem rejection_stops_the_batch pre r post detail rest w :
  Forall sliceable (pre ++ [r]) ->
  let replies := repeat Accepted (length pre) ++ Rejected detail :: rest in
  let res := login_fires LoggedIn (pre ++ r :: post) replies w in
  fst res = Failed (RemoteFailure detail) /\
  (exists tr, net (snd res) = net w ++ tr /\ sent tr = pre ++ [r]) /\
  errors (snd res) = errors w.
Proof.
  intros Hs replies res. unfold res, login_fires, connected.
  destruct (addChange_rejected pre r post detail rest Hs w) as (Hf & Htr).
  destruct (addChange_session (pre ++ r :: post) replies w)
    as (_ & _ & _ & Herr & _).
  split; [exact Hf|]. split; [exact Htr | exact Herr].
Qed.

Lemma rejection_stops_the_batch_witness :
  let w := world_of mirrored_fs quiet_shell in
  let res := login_fires LoggedIn
               ([sample_change "c1"] ++ sample_change "c2"
                  :: [sample_change "c3"])
               (repeat Accepted 1 ++ Rejected "boom" :: []) w in
  fst res = Failed (RemoteFailure "boom") /\
  (exists tr, net (snd res) = net w ++ tr /\
              sent tr = [sample_change "c1"] ++ [sample_change "c2"]) /\
  errors (snd res) = errors w.
Proof.
  intros w.
  apply (rejection_stops_the_batch [sample_change "c1"] (sample_change "c2")
           [sample_change "c3"] "boom" [] w).
  repeat constructor.
Defined.

(** ** The mirror *)

#[local] Arguments String.append : simpl never.

Lemma repodir_of_string tmp r : repodir_of tmp (JStr r) = Ok (mirror_path tmp r).
Proof. reflexivity. Qed.






(** C10, as stated, fails: a call can get past the root check and fail
    without the working directory having changed.  A repository name that
    is not a string raises [TypeError] when the mirror path is built, and
    a regular file at the mirror path makes [os.chdir] raise [OSError]. *)
Lemma failed_sync_can_leave_the_working_directory :
  let w := world_of fresh_fs quiet_shell in
  let blocked := world_of (fun p => if String.eqb p "/tmp/buildbot.git"
                                    then Some File else fresh_fs p)
                   quiet_shell in
  let ill_typed := github_sync "/tmp" (JStr "ktf") (JNum 7) "github.com" w in
  let not_a_dir := github_sync "/tmp" (JStr "ktf") (JStr "buildbot")
                     "github.com" blocked in
  fs w "/tmp" = Some Dir /\
  (exists e, fst ill_typed = Raise e /\ kind e = TypeError) /\
  cwd (snd ill_typed) = cwd w /\
  fst not_a_dir = Raise (Exn OSError "Not a directory") /\
  cwd (snd not_a_dir) = cwd blocked.
Proof.
  repeat split. eexists. split; reflexivity.
Qed.

(** C10, amended: with an absolute root that is a directory, a sync that
    comes to enter a directory leaves the process there, whatever the
    external command answers: in the mirror directory when the mirror
    exists (fetch), in the root directory when it does not and the owner is
    a string (clone).  Nothing sets it back.  A sync that fails before
    that (a repository or owner name that is not a string, a mirror path
    that is a regular file) leaves the working directory as it was. *)
Theorem sync_leaves_the_working_directory_moved tmp user repo github_url w :
  is_absolute tmp = true ->
  fs w tmp = Some Dir ->
  let w' := snd (github_sync tmp user repo github_url w) in
  (forall r, repo = JStr r -> fs w (mirror_path tmp r) = Some Dir ->
             cwd w' = mirror_path tmp r) /\
  (forall r u, repo = JStr r -> user = JStr u ->
               fs w (mirror_path tmp r) = None -> cwd w' = tmp) /\
  ((forall s, repo <> JStr s) -> cwd w' = cwd w) /\
  (forall r, repo = JStr r -> (forall s, user <> JStr s) ->
             fs w (mirror_path tmp r) = None -> cwd w' = cwd w) /\
  (forall r, repo = JStr r -> fs w (mirror_path tmp r) = Some File ->
             cwd w' = cwd w).
Proof.
  intros _ Htmp w'. subst w'. unfold mirror_path.
  split; [|split; [|split; [|split]]].
  - intros r -> Hdir.
    unfold github_sync, fetch, bind, path_exists, lift, chdir, logging,
      getstatusoutput, raise, ret.
    rewrite Htmp. simpl. repeat (rewrite Hdir; simpl).
    match goal with |- context [shell w ?d ?c ?f] =>
      destruct (shell w d c f) as [[st out] fs'] end.
    simpl. destruct (Z.eqb st 0); reflexivity.
  - intros r u -> -> Hno.
    unfold github_sync, create_repo, bind, path_exists, lift, chdir, logging,
      getstatusoutput, raise, ret, get_self, clone_url.
    rewrite Htmp. simpl. rewrite Hno. simpl.
    destruct (truthy (private (self w))); simpl; rewrite Htmp; simpl;
      match goal with |- context [shell w ?d ?c ?f] =>
        destruct (shell w d c f) as [[st out] fs'] end;
      simpl; destruct (Z.eqb st 0); reflexivity.
  - intros Hrepo.
    unfold github_sync, bind, path_exists, lift, raise, repodir_of.
    rewrite Htmp. simpl.
    destruct repo; try reflexivity. exfalso. now apply (Hrepo s).
  - intros r -> Huser Hno.
    unfold github_sync, create_repo, bind, path_exists, lift, raise,
      get_self, clone_url.
    rewrite Htmp. simpl. rewrite Hno. simpl.
    destruct user; try (destruct (truthy (private (self w))); reflexivity).
    exfalso. now apply (Huser s).
  - intros r -> Hfile.
    unfold github_sync, bind, path_exists, lift, chdir.
    rewrite Htmp. simpl. repeat (rewrite Hfile; simpl). reflexivity.
Qed.

Lemma sync_leaves_the_working_directory_moved_witness :
  cwd (world_of mirrored_fs failing_shell) = "/" /\
  cwd (snd (github_sync "/tmp" (JStr "ktf") (JStr "buildbot") "github.com"
              (world_of mirrored_fs failing_shell))) = "/tmp/buildbot.git" /\
  cwd (snd (github_sync "/tmp" (JStr "ktf") (JStr "buildbot") "github.com"
              (world_of fresh_fs quiet_shell))) = "/tmp" /\
  cwd (snd (github_sync "/tmp" JNull (JStr "buildbot") "github.com"
              (world_of fresh_fs quiet_shell))) = "/".
Proof.
  split; [reflexivity|]. split; [|split].
  - apply (proj1 (sync_leaves_the_working_directory_moved "/tmp" (JStr "ktf")
                    (JStr "buildbot") "github.com"
                    (world_of mirrored_fs failing_shell) eq_refl eq_refl)
             "buildbot"); reflexivity.
  - apply (proj1 (proj2 (sync_leaves_the_working_directory_moved "/tmp"
                           (JStr "ktf") (JStr "buildbot") "github.com"
                           (world_of fresh_fs quiet_shell) eq_refl eq_refl))
             "buildbot" "ktf"); reflexivity.
  - apply (proj1 (proj2 (proj2 (proj2
             (sync_leaves_the_working_directory_moved "/tmp" JNull
                (JStr "buildbot") "github.com"
                (world_of fresh_fs quiet_shell) eq_refl eq_refl))))
             "buildbot"); [reflexivity | discriminate | reflexivity].
Defined.

(** ** The endpoint *)

Lemma keeps_net_ret {A} (a : A) : keeps_net (ret a).
Proof. intros w. reflexivity. Qed.

Lemma keeps_net_raise {A} (e : exn) : keeps_net (@raise A e).
Proof. intros w. reflexivity. Qed.

Lemma keeps_net_lift {A} (r : result A) : keeps_net (lift r).
Proof. intros w. reflexivity. Qed.

Lemma keeps_net_bind {A B} (c : M A) (k : A -> M B) :
  keeps_net c -> (forall a, keeps_net (k a)) -> keeps_net (bind c k).
Proof.
  intros Hc Hk w. unfold bind. specialize (Hc w).
  destruct (c w) as [[a|e] w']; simpl in *.
  - now rewrite Hk.
  - exact Hc.
Qed.

Lemma keeps_net_logging l m : keeps_net (logging l m).
Proof. intros w. reflexivity. Qed.

Lemma keeps_net_get_self : keeps_net get_self.
Proof. intros w. reflexivity. Qed.

Lemma keeps_net_set_private v : keeps_net (set_private v).
Proof. intros w. reflexivity. Qed.

Lemma keeps_net_path_exists p : keeps_net (path_exists p).
Proof. intros w. reflexivity. Qed.

Lemma keeps_net_chdir p : keeps_net (chdir p).
Proof. intros w. unfold chdir. destruct (fs w p) as [[]|]; reflexivity. Qed.

Lemma keeps_net_getstatusoutput cmd : keeps_net (getstatusoutput cmd).
Proof.
  intros w. unfold getstatusoutput.
  destruct (shell w (cwd w) cmd (fs w)) as [r f]. reflexivity.
Qed.

Create HintDb frame.
#[local] Hint Resolve keeps_net_ret keeps_net_raise keeps_net_lift
  keeps_net_logging keeps_net_get_self keeps_net_set_private
  keeps_net_path_exists keeps_net_chdir keeps_net_getstatusoutput : frame.

Ltac frame :=
  repeat first
    [ apply keeps_net_bind; [|intros]
    | match goal with
      | |- keeps_net (if ?b then _ else _) => destruct b
      | |- keeps_net (let '(_, _) := ?r in _) => destruct r
      end
    | solve [auto with frame] ].

Lemma fetch_keeps_net d : keeps_net (fetch d).
Proof. unfold fetch. frame. Qed.

Lemma create_repo_keeps_net tmp user repo g :
  keeps_net (create_repo tmp user repo g).
Proof. unfold create_repo. frame. Qed.

Lemma github_sync_keeps_net tmp user repo g :
  keeps_net (github_sync tmp user repo g).
Proof.
  unfold github_sync. frame.
Qed.

Lemma read_request_keeps_net json_loads request :
  keeps_net (read_request json_loads request).
Proof. unfold read_request. frame. Qed.

Lemma log_exception_run e w :
  log_exception e w = (Ok tt, exec (log_exception e) w) /\
  logs (exec (log_exception e) w) =
    logs w ++ [(ERROR, Text "Encountered an exception:");
               (ERROR, TracebackOf e)] /\
  net (exec (log_exception e) w) = net w.
Proof.
  repeat split. unfold exec, log_exception, bind, logging. simpl.
  now rewrite <- app_assoc.
Qed.

(** C9: [render_POST] returns normally on every request, in every world.
    An exception from any statement of the [try] block (reading the
    payload, sync, extraction, connecting) ends in two ERROR entries of the
    log, and when it is sync that raises, [process_change] is not run:
    the world is the one sync left, plus the log entries, and nothing has
    happened on the network. *)
Theorem render_POST_swallows_every_exception json_loads request w :
  (exists w', render_POST json_loads request w = (Ok tt, w')) /\
  (forall e w1,
      render_POST_try json_loads request w = (Raise e, w1) ->
      render_POST json_loads request w = (Ok tt, exec (log_exception e) w1) /\
      logs (exec (log_exception e) w1) =
        logs w1 ++ [(ERROR, Text "Encountered an exception:");
                    (ERROR, TracebackOf e)]) /\
  (forall payload user repo w1 e w2,
      read_request json_loads request w = (Ok (payload, user, repo), w1) ->
      github_sync (local_dir (self w1)) user repo (github (self w1)) w1
        = (Raise e, w2) ->
      render_POST json_loads request w = (Ok tt, exec (log_exception e) w2) /\
      net (exec (log_exception e) w2) = net w).
Proof.
  split; [|split].
  - unfold render_POST, try_except.
    destruct (render_POST_try json_loads request w) as [[[]|e] w'].
    + now exists w'.
    + exists (exec (log_exception e) w'). apply log_exception_run.
  - intros e w1 H. unfold render_POST, try_except. rewrite H.
    split; apply log_exception_run.
  - intros payload user repo w1 e w2 Hread Hsync.
    assert (Htry : render_POST_try json_loads request w = (Raise e, w2)).
    { unfold render_POST_try, bind at 1. rewrite Hread.
      unfold bind at 1. unfold get_self at 1. cbv beta iota.
      unfold bind at 1. now rewrite Hsync. }
    unfold render_POST, try_except. rewrite Htry.
    split; [apply log_exception_run|].
    destruct (log_exception_run e w2) as (_ & _ & ->).
    pose proof (github_sync_keeps_net (local_dir (self w1)) user repo
                  (github (self w1)) w1) as Hs.
    rewrite Hsync in Hs. simpl in Hs. rewrite Hs.
    pose proof (read_request_keeps_net json_loads request w) as Hr.
    now rewrite Hread in Hr.
Qed.

Lemma render_POST_swallows_every_exception_witness :
  let loads := fun _ : string =>
                 Ok (sample_payload "refs/heads/main" "abc123"
                       [sample_commit "c1" ["a.py"] [] []]) in
  let w := world_of mirrored_fs failing_shell in
  let e := Exn RuntimeError "Unable to fetch remote changes" in
  exists w2,
    render_POST loads sample_request w = (Ok tt, exec (log_exception e) w2) /\
    net (exec (log_exception e) w2) = net w.
Proof.
  intros loads w e.
  pose (w1 := snd (read_request loads sample_request w)).
  pose (w2 := snd (github_sync "/tmp" (JStr "ktf") (JStr "buildbot")
                     "github.com" w1)).
  exists w2.
  apply (proj2 (proj2 (render_POST_swallows_every_exception
                         loads sample_request w))
           (sample_payload "refs/heads/main" "abc123"
              [sample_commit "c1" ["a.py"] [] []])
           (JStr "ktf") (JStr "buildbot") w1 e w2);
    reflexivity.
Defined.

(** ** Two requests, end to end *)

(** A push of one commit to [main]: the mirror is fetched, one record is
    extracted, and once the login succeeds and the buildmaster acknowledges
    the record, the session is login, connect, one call, its
    acknowledgment, close. *)
Example push_of_one_commit :
  let loads := fun _ : string =>
                 Ok (sample_payload "refs/heads/main" "abc123"
                       [sample_commit "c1" ["a.py"] [] []]) in
  let w := world_of mirrored_fs quiet_shell in
  let w1 := snd (render_POST loads sample_request w) in
  fst (extract_changes
         (sample_payload "refs/heads/main" "abc123"
            [sample_commit "c1" ["a.py"] [] []]) w)
    = Ok [sample_change "c1"] /\
  fst (render_POST loads sample_request w) = Ok tt /\
  net w1 = [Login "change" "changepw"; ConnectTCP "localhost" 9989] /\
  net (snd (login_fires LoggedIn [sample_change "c1"] [Accepted] w1)) =
    [Login "change" "changepw"; ConnectTCP "localhost" 9989;
     CallRemote (sample_change "c1"); Reply Accepted; LoseConnection].
Proof. repeat split. Qed.

(** The deletion of the branch [old]: nothing is extracted and nothing
    happens on the network. *)
Example deletion_of_a_branch :
  let payload := sample_payload "refs/heads/old" (zeros 40) [] in
  let loads := fun _ : string => Ok payload in
  let w := world_of mirrored_fs quiet_shell in
  fst (extract_changes payload w) = Ok [] /\
  fst (render_POST loads sample_request w) = Ok tt /\
  net (snd (render_POST loads sample_request w)) = [].
Proof. repeat split. Qed.

(** * Further properties of the code *)

#[local] Arguments String.append : clear simpl.

(** ** The refs and revisions the patterns accept *)

Lemma append_nil_r (s : string) : s ^^ "" = s.
Proof. induction s as [|c s IH]; simpl; [reflexivity | now rewrite IH]. Qed.

Lemma strip_prefix_complete (p rest : string) :
  strip_prefix p (p ^^ rest) = Some rest.
Proof.
  induction p as [|a p IH]; simpl; [reflexivity|].
  now rewrite Ascii.eqb_refl.
Qed.

Lemma span_line_spec (s l r : string) :
  span_line s = (l, r) ->
  s = l ^^ r /\ one_line l /\ (r = "" \/ exists r', r = String LF r').
Proof.
  revert l r. induction s as [|c s IH]; simpl; intros l r H.
  - inversion H; subst. repeat split; [intros c [] | now left].
  - destruct (Ascii.eqb_spec c LF) as [->|Hc].
    + inversion H; subst. repeat split; [intros c [] | right; now exists s].
    + destruct (span_line s) as [l' r'] eqn:E. inversion H; subst.
      destruct (IH l' r eq_refl) as (-> & Hl & Hr).
      repeat split; [|exact Hr].
      intros d [<-|Hd]; [exact Hc | now apply Hl].
Qed.

Lemma span_line_newline (name : string) :
  one_line name -> span_line (name ^^ newline) = (name, newline).
Proof.
  induction name as [|c name IH]; simpl; intros H; [reflexivity|].
  destruct (Ascii.eqb_spec c LF) as [E|_].
  - exfalso. apply (H c); [now left | exact E].
  - rewrite IH; [reflexivity|]. intros d Hd. apply H. now right.
Qed.

Lemma at_end_spec (r : string) : at_end r = true <-> r = "" \/ r = newline.
Proof.
  unfold newline. destruct r as [|c [|d r]]; simpl.
  - split; [now left | reflexivity].
  - split.
    + intros H. apply Ascii.eqb_eq in H. subst. now right.
    + intros [H|H]; [discriminate|]. inversion H. apply Ascii.eqb_refl.
  - split; [discriminate | intros [H|H]; discriminate].
Qed.

(** The branch pattern accepts exactly [refs/heads/<name>] for a non-empty
    name without a newline, with or without one newline closing the ref,
    and the branch is that name, slashes included. *)
Theorem match_branch_accepts_exactly (refname name : string) :
  match_branch refname = Some name <->
  name <> "" /\ one_line name /\
  (refname = "refs/heads/" ^^ name \/
   refname = "refs/heads/" ^^ name ^^ newline).
Proof.
  split.
  - unfold match_branch. intros H.
    destruct (strip_prefix "refs/heads/" refname) as [rest|] eqn:E;
      [|discriminate].
    apply strip_prefix_append in E. subst refname.
    destruct (span_line rest) as [l r] eqn:E.
    apply span_line_spec in E. destruct E as (-> & Hl & _).
    destruct l as [|c l]; [discriminate|].
    destruct (at_end r) eqn:Er; [|discriminate].
    inversion H; subst. apply at_end_spec in Er.
    split; [discriminate|]. split; [exact Hl|].
    destruct Er as [->| ->]; [left | right]; [|reflexivity].
    now rewrite append_nil_r.
  - intros (Hne & Hl & [-> | ->]).
    + now apply match_branch_heads.
    + unfold match_branch. rewrite strip_prefix_complete.
      rewrite (span_line_newline name Hl).
      destruct name; [congruence | reflexivity].
Qed.

(** The deletion pattern accepts exactly the strings of zeros, the empty
    string among them, with or without one closing newline. *)
Theorem match_zeros_accepts_exactly (newrev : string) :
  match_zeros newrev = true <->
  exists n, newrev = zeros n \/ newrev = zeros n ^^ newline.
Proof.
  split.
  - induction newrev as [|c s IH].
    + intros _. exists 0. now left.
    + intros H.
      assert (Hc : (c = "0"%char /\ match_zeros s = true) \/
                   at_end (String c s) = true).
      { simpl in H.
        destruct c as [[] [] [] [] [] [] [] []]; try (right; exact H).
        left. split; [reflexivity | exact H]. }
      destruct Hc as [[-> Hs] | He].
      * destruct (IH Hs) as (n & [-> | ->]); exists (S n);
          [left | right]; reflexivity.
      * apply at_end_spec in He. destruct He as [He | He];
          [discriminate|].
        exists 0. right. exact He.
  - intros (n & [-> | ->]).
    + apply match_zeros_zeros.
    + induction n as [|n IH]; [reflexivity | exact IH].
Qed.

(** ** What [process_change] touches *)

Lemma only_logs_ret {A} (a : A) : only_logs (ret a).
Proof. intros w. repeat split. Qed.

Lemma only_logs_raise {A} (e : exn) : only_logs (@raise A e).
Proof. intros w. repeat split. Qed.

Lemma only_logs_lift {A} (r : result A) : only_logs (lift r).
Proof. intros w. repeat split. Qed.

Lemma only_logs_logging l m : only_logs (logging l m).
Proof. intros w. repeat split. Qed.

Lemma only_logs_bind {A B} (c : M A) (k : A -> M B) :
  only_logs c -> (forall a, only_logs (k a)) -> only_logs (bind c k).
Proof.
  intros Hc Hk w. unfold bind. specialize (Hc w).
  destruct (c w) as [[a|e] w']; simpl in *; [|exact Hc].
  destruct Hc as (H1 & H2 & H3 & H4 & H5).
  destruct (Hk a w') as (K1 & K2 & K3 & K4 & K5).
  rewrite K1, K2, K3, K4, K5. repeat split; assumption.
Qed.

#[local] Hint Resolve only_logs_ret only_logs_raise only_logs_lift
  only_logs_logging : frame.

Ltac logs_only :=
  repeat first
    [ apply only_logs_bind; [|intros]
    | match goal with
      | |- only_logs (if ?b then _ else _) => destruct b
      | |- only_logs (match ?m with Some _ => _ | None => _ end) => destruct m
      end
    | solve [auto with frame] ].

Lemma extract_changes_only_logs payload : only_logs (extract_changes payload).
Proof. unfold extract_changes. logs_only. Qed.

(** Whatever the payload, [process_change] leaves the file system, the
    working directory and the attributes of the resource alone, and on the
    network it does nothing or, when it returns with records to deliver,
    exactly one login followed by one connect to the configured master. *)
Theorem process_change_logs_in_at_most_once payload w :
  let r := fst (process_change payload w) in
  let w' := snd (process_change payload w) in
  fs w' = fs w /\ cwd w' = cwd w /\ self w' = self w /\
  (net w' = net w \/
   exists host port,
     split_master (master (self w)) = Ok (host, port) /\
     r = Ok tt /\
     net w' = net w ++ [Login "change" "changepw"; ConnectTCP host port]).
Proof.
  unfold process_change, bind.
  destruct (extract_changes_only_logs payload w) as (H1 & H2 & _ & H4 & H5).
  destruct (extract_changes payload w) as [[changes|e] w1]; simpl in *.
  - destruct changes as [|c cs].
    + simpl. rewrite H1, H2, H4, H5. repeat split. now left.
    + unfold submit_changes, bind, get_self, lift. rewrite H4.
      destruct (split_master (master (self w))) as [[host port]|e] eqn:E;
        simpl.
      * rewrite H1, H2, H4, H5. repeat split. right. exists host, port.
        repeat split. now rewrite <- app_assoc.
      * rewrite H1, H2, H4, H5. repeat split. now left.
  - rewrite H1, H2, H4, H5. repeat split. now left.
Qed.

(** Extraction is all or nothing: when one commit of the list cannot be
    converted, the exception of the first such commit is what
    [process_change] raises, the records of the commits before it are
    dropped, and nothing happens on the network. *)
Theorem one_bad_commit_drops_the_push
  payload w refname b newrev pre cs bad post e :
  getitem payload "ref" = Ok (JStr refname) ->
  match_branch refname = Some b ->
  getitem payload "after" = Ok (JStr newrev) ->
  match_zeros newrev = false ->
  getitem payload "commits" = Ok (JArr (pre ++ bad :: post)) ->
  Forall2 describes pre cs ->
  change_of_commit b bad = Raise e ->
  process_change payload w = (Raise e, w).
Proof.
  intros Href Hb Hafter Hlive Hcommits Hd Hbad.
  unfold process_change, extract_changes, bind, lift, ret.
  rewrite Hafter, Href. simpl. rewrite Hb. simpl. rewrite Hlive.
  rewrite Hcommits. simpl.
  assert (E : for_each (change_of_commit b) (pre ++ bad :: post) = Raise e).
  { clear - Hd Hbad. induction Hd as [|cj c pre cs Hc _ IH]; simpl.
    - now rewrite Hbad.
    - now rewrite (change_of_commit_described b cj c Hc), IH. }
  now rewrite E.
Qed.

Lemma one_bad_commit_drops_the_push_witness :
  let cjs := [sample_commit "c1" ["a.py"] [] []] ++
             JObj [("id", JStr "c2"); ("added", JArr [])]
             :: [sample_commit "c3" [] ["a.py"] []] in
  let w := world_of mirrored_fs quiet_shell in
  process_change (sample_payload "refs/heads/main" "abc123" cjs) w
    = (Raise (Exn KeyError "modified"), w).
Proof.
  intros cjs w.
  apply (one_bad_commit_drops_the_push
           (sample_payload "refs/heads/main" "abc123" cjs) w
           "refs/heads/main" "main" "abc123"
           [sample_commit "c1" ["a.py"] [] []]
           [sample_view "c1" ["a.py"] [] []]
           (JObj [("id", JStr "c2"); ("added", JArr [])])
           [sample_commit "c3" [] ["a.py"] []]
           (Exn KeyError "modified"));
    try reflexivity.
  repeat constructor. apply sample_commit_described.
Defined.

(** A push to a live branch that carries nothing to iterate over (an empty
    list of commits, an empty string, an empty dict) ends with the warning
    and without any login or connect. *)
Theorem push_without_commits_only_warns payload w refname b newrev commits :
  getitem payload "ref" = Ok (JStr refname) ->
  match_branch refname = Some b ->
  getitem payload "after" = Ok (JStr newrev) ->
  match_zeros newrev = false ->
  getitem payload "commits" = Ok commits ->
  iterate commits = Ok [] ->
  process_change payload w
    = (Ok tt, exec (logging WARNING (Text "No changes found")) w).
Proof.
  intros Href Hb Hafter Hlive Hcommits Hnone.
  unfold process_change, extract_changes, bind, lift, ret.
  rewrite Hafter, Href. simpl. rewrite Hb. simpl. rewrite Hlive.
  rewrite Hcommits. simpl. now rewrite Hnone.
Qed.

Lemma push_without_commits_only_warns_witness :
  let w := world_of mirrored_fs quiet_shell in
  process_change (sample_payload "refs/heads/main" "abc123" []) w
    = (Ok tt, exec (logging WARNING (Text "No changes found")) w).
Proof.
  intros w.
  apply (push_without_commits_only_warns
           (sample_payload "refs/heads/main" "abc123" []) w
           "refs/heads/main" "main" "abc123" (JArr []));
    reflexivity.
Defined.

(** ** The address of the buildmaster *)

Lemma split_colon_cons (s h : string) (t : list string) :
  split_colon s = h :: t ->
  has_colon h = false /\
  ((t = [] /\ s = h) \/
   (exists rest, s = h ^^ ":" ^^ rest /\ split_colon rest = t /\ t <> [])).
Proof.
  revert h t. induction s as [|c s IH]; simpl; intros h t H.
  - inversion H; subst. split; [reflexivity | now left].
  - destruct (Ascii.eqb_spec c ":") as [->|Hc].
    + inversion H; subst. split; [reflexivity|]. right. exists s.
      repeat split. destruct s; simpl; [discriminate|].
      destruct (Ascii.eqb a ":"); [discriminate|].
      destruct (split_colon s); discriminate.
    + destruct (split_colon s) as [|p ps] eqn:E.
      * inversion H; subst. exfalso.
        destruct s; simpl in E; [discriminate|].
        destruct (Ascii.eqb a ":"); [discriminate|].
        destruct (split_colon s); discriminate.
      * inversion H; subst. destruct (IH p t eq_refl) as (Hp & Hs).
        split.
        -- simpl. rewrite Hp. apply Ascii.eqb_neq in Hc. now rewrite Hc.
        -- destruct Hs as [[-> ->] | (rest & -> & Hr & Ht)];
             [now left | right]. now exists rest.
Qed.

Lemma split_colon_plain (s : string) :
  has_colon s = false -> split_colon s = [s].
Proof.
  induction s as [|c s IH]; simpl; [reflexivity|].
  intros H. apply orb_false_iff in H. destruct H as [Hc Hs].
  rewrite Hc, (IH Hs). reflexivity.
Qed.

Lemma split_colon_first (h rest : string) :
  has_colon h = false ->
  split_colon (h ^^ ":" ^^ rest) = h :: split_colon rest.
Proof.
  induction h as [|c h IH]; simpl in *; [reflexivity|].
  intros H. apply orb_false_iff in H. destruct H as [Hc Hh].
  rewrite Hc, (IH Hh). reflexivity.
Qed.

Lemma py_int_raises_ValueError (s : string) (e : exn) :
  py_int s = Raise e -> kind e = ValueError.
Proof.
  unfold py_int. intros H.
  destruct (lstrip s) as [|c s'].
  - simpl in H. inversion H. reflexivity.
  - destruct c as [[] [] [] [] [] [] [] []];
      match type of H with
      | context [digits ?a ?b ?t] => destruct (digits a b t)
      end; inversion H; reflexivity.
Qed.

(** [process_change] reads the master as host and port exactly when it is
    [host:port] with a single colon and a port that [int] accepts. *)
Theorem master_is_host_and_port (master host : string) (port : Z) :
  split_master master = Ok (host, port) <->
  exists p,
    master = host ^^ ":" ^^ p /\
    has_colon host = false /\ has_colon p = false /\ py_int p = Ok port.
Proof.
  unfold split_master. split.
  - destruct (split_colon master) as [|h [|p [|q t]]] eqn:E;
      try discriminate.
    destruct (py_int p) as [n|e] eqn:Ep; simpl; [|discriminate].
    intros H. inversion H; subst.
    destruct (split_colon_cons master host [p] E) as (Hh & [[F _]|Hr]);
      [discriminate|].
    destruct Hr as (rest & -> & Hrest & _).
    destruct (split_colon_cons rest p [] Hrest) as (Hp & [[_ ->]|Hr]).
    + exists p. repeat split; assumption.
    + destruct Hr as (? & _ & _ & F). congruence.
  - intros (p & -> & Hh & Hp & Hint).
    rewrite (split_colon_first host p Hh), (split_colon_plain p Hp).
    now rewrite Hint.
Qed.

(** With any other master the records are lost at this point:
    [process_change] raises [ValueError] before the login and the connect,
    and the world is as extraction left it. *)
Theorem malformed_master_stops_before_the_network changes w e :
  changes <> [] ->
  split_master (master (self w)) = Raise e ->
  submit_changes changes w = (Raise e, w) /\ kind e = ValueError.
Proof.
  intros Hne H. split.
  - destruct changes as [|c cs]; [congruence|].
    unfold submit_changes, bind, get_self, lift. now rewrite H.
  - unfold split_master in H.
    destruct (split_colon (master (self w))) as [|h [|p [|q t]]];
      try (inversion H; reflexivity).
    destruct (py_int p) as [n|e'] eqn:Ep; simpl in H; [discriminate|].
    inversion H; subst. exact (py_int_raises_ValueError p e Ep).
Qed.

Lemma malformed_master_stops_before_the_network_witness :
  let w := {| fs := mirrored_fs; cwd := "/"; shell := quiet_shell;
              self := {| github := "github.com"; master := "localhost";
                         local_dir := "/tmp"; private := JBool false |};
              logs := []; net := [] |} in
  let e := Exn ValueError "need more than 1 value to unpack" in
  submit_changes [sample_change "c1"] w = (Raise e, w) /\
  kind e = ValueError.
Proof.
  intros w e.
  apply (malformed_master_stops_before_the_network [sample_change "c1"] w e).
  - discriminate.
  - reflexivity.
Defined.

(** ** More on the delivery *)

Lemma session_sent_prefix cs tr :
  session cs tr ->
  sent tr = firstn (length (sent tr)) cs /\
  count_events is_ack tr <= length (sent tr) <= S (count_events is_ack tr) /\
  length (sent tr) <= length cs.
Proof.
  induction 1 as [|c cs|c cs|c cs r Hr|c cs tr _ IH]; simpl.
  - repeat split; auto.
  - repeat split; auto with arith.
  - unfold count_events. simpl. repeat split; auto with arith.
  - unfold count_events. destruct r; simpl; try congruence;
      repeat split; auto with arith.
  - destruct IH as (Hs & Ha & Hl). unfold count_events in *. simpl.
    rewrite <- Hs. repeat split; lia.
Qed.

(** However the buildmaster answers, the records handed to [callRemote]
    are the first records of the batch, in order and once each, and at most
    one of them is still unanswered. *)
Theorem records_go_out_as_a_prefix changes replies w :
  exists tr,
    net (snd (addChange changes replies w)) = net w ++ tr /\
    sent tr = firstn (length (sent tr)) changes /\
    count_events is_ack tr <= length (sent tr) <= S (count_events is_ack tr) /\
    length (sent tr) <= length changes.
Proof.
  destruct (addChange_session changes replies w) as (tr & Hnet & Hs & _).
  exists tr. split; [exact Hnet|]. now apply session_sent_prefix.
Qed.

(** A record whose revision cannot be sliced (a commit id that is a number,
    [null], a boolean or a dict) stops the batch when its turn comes:
    [addChange] raises [TypeError] while logging it, the record and those
    after it are not sent, and the connection is left open. *)
Theorem unsliceable_revision_stops_the_batch pre r post e tail w :
  Forall sliceable pre ->
  slice8 (revision r) = Raise e ->
  let res := addChange (pre ++ r :: post)
               (repeat Accepted (length pre) ++ tail) w in
  fst res = Failed (Raised e) /\
  exists tr,
    net (snd res) = net w ++ tr /\
    sent tr = pre /\
    count_events is_close tr = 0.
Proof.
  intros Hs Hr. cbv zeta. revert w.
  induction Hs as [|c pre Hc _ IH]; intros w; simpl app.
  - rewrite addChange_cons. cbv zeta. rewrite Hr.
    split; [reflexivity|]. exists []. cbn [snd].
    split; [now rewrite app_nil_r | split; reflexivity].
  - simpl length. simpl repeat. simpl app. rewrite addChange_cons. cbv zeta.
    destruct (sliceable_slice8 c Hc) as [p ->].
    match goal with |- context [addChange _ _ ?w'] =>
      destruct (IH w') as (Hf & tr & Hnet & Hsent & Hclose) end.
    split; [exact Hf|].
    exists (CallRemote c :: Reply Accepted :: tr). rewrite Hnet.
    split; [simpl; now rewrite <- !app_assoc|].
    split; [simpl; now rewrite Hsent | exact Hclose].
Qed.

Lemma unsliceable_revision_stops_the_batch_witness :
  let bad := {| revision := JNum 42; comments := JStr "fix bug";
                branch := "main"; who := "Ann <ann@x.com>";
                files := []; links := [] |} in
  let w := world_of mirrored_fs quiet_shell in
  let res := addChange ([sample_change "c1"] ++ bad :: [sample_change "c3"])
               (repeat Accepted 1 ++ [Accepted; Accepted]) w in
  fst res = Failed (Raised (Exn TypeError "object is unsubscriptable")) /\
  exists tr,
    net (snd res) = net w ++ tr /\
    sent tr = [sample_change "c1"] /\
    count_events is_close tr = 0.
Proof.
  intros bad w.
  apply (unsliceable_revision_stops_the_batch [sample_change "c1"] bad
           [sample_change "c3"] (Exn TypeError "object is unsubscriptable")
           [Accepted; Accepted] w).
  - repeat constructor.
  - reflexivity.
Defined.

(** When the login deferred fails (the master is unreachable or rejects
    the credentials), the event ends with its login and connect: the error
    is logged once by [connectFailed], no record is sent, the connection is
    not closed by the client, and the failure stays on the deferred. *)
Theorem failed_login_sends_nothing changes w host port error replies :
  changes <> [] ->
  split_master (master (self w)) = Ok (host, port) ->
  let w1 := snd (submit_changes changes w) in
  let res := login_fires (LoginFailed error) changes replies w1 in
  fst res = Failed (LoginFailure error) /\
  net (snd res) = net w ++ [Login "change" "changepw"; ConnectTCP host port] /\
  logs (snd res) =
    logs w ++ [(ERROR, Text ("Could not connect to master: " ^^ error))].
Proof.
  intros Hne Hm. destruct changes as [|c cs]; [congruence|].
  rewrite (submit_changes_connects c cs w host port Hm). cbn [snd].
  split; [reflexivity|]. split; [|reflexivity].
  simpl. now rewrite <- app_assoc.
Qed.

Lemma failed_login_sends_nothing_witness :
  let w := world_of mirrored_fs quiet_shell in
  let w1 := snd (submit_changes [sample_change "c1"] w) in
  let res := login_fires (LoginFailed "Connection refused")
               [sample_change "c1"] [Accepted] w1 in
  fst res = Failed (LoginFailure "Connection refused") /\
  net (snd res) = net w ++ [Login "change" "changepw";
                            ConnectTCP "localhost" 9989] /\
  logs (snd res) =
    logs w ++ [(ERROR, Text ("Could not connect to master: "
                             ^^ "Connection refused"))].
Proof.
  intros w.
  apply (failed_login_sends_nothing [sample_change "c1"] w "localhost" 9989%Z
           "Connection refused" [Accepted]).
  - discriminate.
  - reflexivity.
Defined.

(** ** More on the mirror *)

#[local] Arguments String.append : simpl never.

(** A clone that exits with status 0. *)
Lemma github_sync_clone_succeeds tmp user r github_url w url out fs' :
  fs w tmp = Some Dir ->
  fs w (mirror_path tmp r) = None ->
  clone_url (private (self w)) github_url user (JStr r) = Ok url ->
  shell w tmp ("git clone --mirror " ^^ url ^^ " " ^^ mirror_path tmp r)
    (fs w) = ((0%Z, out), fs') ->
  exists w',
    github_sync tmp user (JStr r) github_url w = (Ok tt, w') /\
    logs w' = logs w ++
      [(INFO, Text ("Clone bare repository: git clone --mirror " ^^ url
                    ^^ " " ^^ mirror_path tmp r))]
    /\ fs w' = fs' /\ cwd w' = tmp /\ net w' = net w.
Proof.
  unfold mirror_path. intros Htmp Hno Hurl Hsh.
  unfold github_sync, create_repo, bind, path_exists, lift, chdir, logging,
    getstatusoutput, raise, ret, get_self.
  rewrite Htmp. simpl. rewrite Hno. simpl. rewrite Hurl. simpl.
  rewrite Htmp. simpl. rewrite Hsh. simpl.
  eexists. split; [reflexivity|]. repeat split.
Qed.

(** A sync under an absolute root that succeeds: the command exits with
    status 0, one INFO line is logged and nothing at level ERROR, the file
    system is the one the tool left, and the process stays in the directory
    it was moved to. *)
Theorem successful_sync_logs_one_line tmp user r github_url w :
  is_absolute tmp = true ->
  fs w tmp = Some Dir ->
  (forall out fs',
      fs w (mirror_path tmp r) = Some Dir ->
      shell w (mirror_path tmp r) "git fetch" (fs w) = ((0%Z, out), fs') ->
      exists w',
        github_sync tmp user (JStr r) github_url w = (Ok tt, w') /\
        logs w' = logs w ++
          [(INFO,
            Text ("Fetching changes from github to: " ^^ mirror_path tmp r))]
        /\ fs w' = fs' /\ cwd w' = mirror_path tmp r /\ net w' = net w) /\
  (forall url out fs',
      fs w (mirror_path tmp r) = None ->
      clone_url (private (self w)) github_url user (JStr r) = Ok url ->
      shell w tmp ("git clone --mirror " ^^ url ^^ " " ^^ mirror_path tmp r)
        (fs w) = ((0%Z, out), fs') ->
      exists w',
        github_sync tmp user (JStr r) github_url w = (Ok tt, w') /\
        logs w' = logs w ++
          [(INFO, Text ("Clone bare repository: git clone --mirror " ^^ url
                        ^^ " " ^^ mirror_path tmp r))]
        /\ fs w' = fs' /\ cwd w' = tmp /\ net w' = net w).
Proof.
  intros _ Htmp. split.
  - intros out fs' Hdir Hsh. unfold mirror_path in *.
    unfold github_sync, fetch, bind, path_exists, lift, chdir, logging,
      getstatusoutput, raise, ret.
    rewrite Htmp. simpl. repeat (rewrite Hdir; simpl). rewrite Hsh. simpl.
    eexists. split; [reflexivity|]. repeat split.
  - intros url out fs' Hno Hurl Hsh.
    exact (github_sync_clone_succeeds tmp user r github_url w url out fs'
             Htmp Hno Hurl Hsh).
Qed.

Lemma successful_sync_logs_one_line_witness :
  (exists w',
      github_sync "/tmp" (JStr "ktf") (JStr "buildbot") "github.com"
        (world_of mirrored_fs quiet_shell) = (Ok tt, w') /\
      logs w' =
        [(INFO, Text "Fetching changes from github to: /tmp/buildbot.git")]
      /\ fs w' = mirrored_fs /\ cwd w' = "/tmp/buildbot.git" /\ net w' = []) /\
  (exists w',
      github_sync "/tmp" (JStr "ktf") (JStr "buildbot") "github.com"
        (world_of fresh_fs quiet_shell) = (Ok tt, w') /\
      logs w' =
        [(INFO, Text ("Clone bare repository: git clone --mirror "
                      ^^ "git://github.com/ktf/buildbot.git"
                      ^^ " " ^^ "/tmp/buildbot.git"))]
      /\ fs w' = fresh_fs /\ cwd w' = "/tmp" /\ net w' = []).
Proof.
  split.
  - apply (proj1 (successful_sync_logs_one_line "/tmp" (JStr "ktf")
                    "buildbot" "github.com"
                    (world_of mirrored_fs quiet_shell) eq_refl eq_refl)
             "" mirrored_fs); reflexivity.
  - apply (proj2 (successful_sync_logs_one_line "/tmp" (JStr "ktf")
                    "buildbot" "github.com"
                    (world_of fresh_fs quiet_shell) eq_refl eq_refl)
             "git://github.com/ktf/buildbot.git" "" fresh_fs); reflexivity.
Defined.

(** Once the mirror directory exists, sync fetches: it moves into the
    mirror and its first log line announces the fetch, whatever the tool
    then answers. *)
Lemma github_sync_fetches tmp user r github_url w :
  fs w tmp = Some Dir ->
  fs w (mirror_path tmp r) = Some Dir ->
  cwd (snd (github_sync tmp user (JStr r) github_url w)) = mirror_path tmp r /\
  exists rest,
    logs (snd (github_sync tmp user (JStr r) github_url w)) =
      logs w ++
      (INFO, Text ("Fetching changes from github to: " ^^ mirror_path tmp r))
      :: rest.
Proof.
  intros Htmp Hdir. unfold mirror_path in *.
  unfold github_sync, fetch, bind, path_exists, lift, chdir, logging,
    getstatusoutput, raise, ret.
  rewrite Htmp. simpl. repeat (rewrite Hdir; simpl).
  match goal with |- context [shell w ?d ?c ?f] =>
    destruct (shell w d c f) as [[st out] fs'] end.
  simpl. destruct (Z.eqb st 0); simpl; split; try reflexivity.
  - now exists [].
  - exists [(ERROR, Text out)]. now rewrite <- app_assoc.
Qed.

(** First sync and second sync under an absolute root: when the clone
    succeeds and the tool has created the mirror directory, the next sync
    of the same repository takes the other path and fetches inside the
    mirror. *)
Theorem clone_then_fetch tmp user r github_url w url out fs' :
  is_absolute tmp = true ->
  fs w tmp = Some Dir ->
  fs w (mirror_path tmp r) = None ->
  clone_url (private (self w)) github_url user (JStr r) = Ok url ->
  shell w tmp ("git clone --mirror " ^^ url ^^ " " ^^ mirror_path tmp r)
    (fs w) = ((0%Z, out), fs') ->
  fs' tmp = Some Dir ->
  fs' (mirror_path tmp r) = Some Dir ->
  exists w1,
    github_sync tmp user (JStr r) github_url w = (Ok tt, w1) /\
    cwd w1 = tmp /\
    cwd (snd (github_sync tmp user (JStr r) github_url w1))
      = mirror_path tmp r /\
    exists rest,
      logs (snd (github_sync tmp user (JStr r) github_url w1)) =
        logs w1 ++
        (INFO, Text ("Fetching changes from github to: " ^^ mirror_path tmp r))
        :: rest.
Proof.
  intros _ Htmp Hno Hurl Hsh Htmp' Hdir'.
  destruct (github_sync_clone_succeeds tmp user r github_url w url out fs'
              Htmp Hno Hurl Hsh) as (w1 & Hrun & _ & Hfs & Hcwd & _).
  exists w1. split; [exact Hrun|]. split; [exact Hcwd|].
  apply github_sync_fetches; rewrite Hfs; assumption.
Qed.

Lemma clone_then_fetch_witness :
  let sh : shell_t := fun _ _ _ => ((0%Z, "Cloning into bare repository"),
                                    mirrored_fs) in
  let w := world_of fresh_fs sh in
  exists w1,
    github_sync "/tmp" (JStr "ktf") (JStr "buildbot") "github.com" w
      = (Ok tt, w1) /\
    cwd w1 = "/tmp" /\
    cwd (snd (github_sync "/tmp" (JStr "ktf") (JStr "buildbot") "github.com"
                w1)) = mirror_path "/tmp" "buildbot" /\
    exists rest,
      logs (snd (github_sync "/tmp" (JStr "ktf") (JStr "buildbot")
                   "github.com" w1)) =
        logs w1 ++
        (INFO, Text ("Fetching changes from github to: "
                     ^^ mirror_path "/tmp" "buildbot"))
        :: rest.
Proof.
  intros sh w.
  apply (clone_then_fetch "/tmp" (JStr "ktf") "buildbot" "github.com" w
           "git://github.com/ktf/buildbot.git"
           "Cloning into bare repository" mirrored_fs);
    reflexivity.
Defined.

(** Sync checks nothing but the root before it works with the names: a
    repository name that is not a string raises [TypeError] right after
    the root check, and so does an owner that is not a string on the clone
    path; in both cases no directory has been entered and no command run. *)
Theorem ill_typed_names_fail_before_any_effect tmp user repo github_url w :
  fs w tmp = Some Dir ->
  ((forall s, repo <> JStr s) ->
   exists e, github_sync tmp user repo github_url w = (Raise e, w) /\
             kind e = TypeError) /\
  (forall r, repo = JStr r -> (forall s, user <> JStr s) ->
   fs w (mirror_path tmp r) = None ->
   exists e, github_sync tmp user repo github_url w = (Raise e, w) /\
             kind e = TypeError).
Proof.
  intros Htmp. split.
  - intros Hrepo.
    unfold github_sync, bind, path_exists, lift, raise, repodir_of.
    rewrite Htmp. simpl.
    destruct repo; try (eexists; split; reflexivity).
    exfalso. now apply (Hrepo s).
  - intros r -> Huser Hno. unfold mirror_path in Hno.
    unfold github_sync, create_repo, bind, path_exists, lift, raise,
      get_self, clone_url.
    rewrite Htmp. simpl. rewrite Hno. simpl.
    destruct user; try (destruct (truthy (private (self w)));
                        eexists; split; reflexivity).
    exfalso. now apply (Huser s).
Qed.

Lemma ill_typed_names_fail_before_any_effect_witness :
  let w := world_of fresh_fs quiet_shell in
  (exists e, github_sync "/tmp" (JStr "ktf") (JNum 7) "github.com" w
             = (Raise e, w) /\ kind e = TypeError) /\
  (exists e, github_sync "/tmp" JNull (JStr "buildbot") "github.com" w
             = (Raise e, w) /\ kind e = TypeError).
Proof.
  intros w. split.
  - apply (proj1 (ill_typed_names_fail_before_any_effect "/tmp" (JStr "ktf")
                    (JNum 7) "github.com" w eq_refl)).
    discriminate.
  - apply (proj2 (ill_typed_names_fail_before_any_effect "/tmp" JNull
                    (JStr "buildbot") "github.com" w eq_refl) "buildbot");
      [reflexivity | discriminate | reflexivity].
Defined.

(** ** More on the endpoint *)

(** What a request must carry for [render_POST] to reach sync, and what
    reading it leaves behind: the [private] flag of the payload on the
    resource, and one DEBUG line. *)
Lemma read_request_ok json_loads request w payload user repo w1 :
  read_request json_loads request w = (Ok (payload, user, repo), w1) ->
  exists repository owner p,
    getitem payload "repository" = Ok repository /\
    getitem repository "owner" = Ok owner /\
    getitem owner "name" = Ok user /\
    getitem repository "name" = Ok repo /\
    getitem repository "private" = Ok p /\
    private (self w1) = p /\
    github (self w1) = github (self w) /\
    master (self w1) = master (self w) /\
    local_dir (self w1) = local_dir (self w) /\
    fs w1 = fs w /\ cwd w1 = cwd w /\ shell w1 = shell w /\ net w1 = net w /\
    logs w1 = logs w ++ [(DEBUG, PayloadDump payload)].
Proof.
  unfold read_request, bind, lift, set_private, logging, ret.
  destruct (lookup_arg "payload" (args request)) as [[|text values]|];
    simpl; try discriminate.
  destruct (json_loads text) as [pl|e]; simpl; [|discriminate].
  destruct (getitem pl "repository") as [repository|e] eqn:E1; simpl;
    [|discriminate].
  destruct (getitem repository "owner") as [owner|e] eqn:E2; simpl;
    [|discriminate].
  destruct (getitem owner "name") as [u|e] eqn:E3; simpl; [|discriminate].
  destruct (getitem repository "name") as [r|e] eqn:E4; simpl;
    [|discriminate].
  destruct (getitem repository "private") as [p|e] eqn:E5; simpl;
    [|discriminate].
  intros H. inversion H; subst. clear H.
  exists repository, owner, p. simpl. repeat split; assumption.
Qed.

(** A request that cannot be read (no [payload] field, text that is not
    JSON, a payload without [repository], its [name], its [private] flag or
    the [name] of its [owner]) changes nothing but the log: the exception
    is raised before [private] is stored or anything is synced,
    [render_POST] returns normally, and what it adds to the log is at
    level ERROR. *)
Theorem unreadable_request_only_logs json_loads request w e w' :
  read_request json_loads request w = (Raise e, w') ->
  let w2 := snd (render_POST json_loads request w) in
  w' = w /\
  fst (render_POST json_loads request w) = Ok tt /\
  fs w2 = fs w /\ cwd w2 = cwd w /\ shell w2 = shell w /\
  self w2 = self w /\ net w2 = net w /\
  exists added,
    logs w2 = logs w ++ added /\ added <> [] /\
    Forall (fun entry => fst entry = ERROR) added.
Proof.
  intros H.
  assert (Hw : w' = w).
  { revert H. unfold read_request, bind, lift, set_private, logging, ret.
    destruct (lookup_arg "payload" (args request)) as [[|text values]|];
      simpl; try (intros H; now inversion H).
    destruct (json_loads text) as [pl|e0]; simpl;
      [|intros H; now inversion H].
    destruct (getitem pl "repository") as [repository|e0]; simpl;
      [|intros H; now inversion H].
    destruct (getitem repository "owner") as [owner|e0]; simpl;
      [|intros H; now inversion H].
    destruct (getitem owner "name") as [u|e0]; simpl;
      [|intros H; now inversion H].
    destruct (getitem repository "name") as [r|e0]; simpl;
      [|intros H; now inversion H].
    destruct (getitem repository "private") as [p|e0]; simpl;
      [|intros H; now inversion H].
    discriminate. }
  subst w'.
  assert (Hrun : render_POST json_loads request w
                 = (Ok tt, exec (log_exception e) w)).
  { unfold render_POST, try_except, render_POST_try, bind at 1. rewrite H.
    apply log_exception_run. }
  cbv zeta. rewrite Hrun. cbn [fst snd].
  destruct (log_exception_run e w) as (_ & Hlogs & _).
  repeat split.
  exists [(ERROR, Text "Encountered an exception:"); (ERROR, TracebackOf e)].
  split; [exact Hlogs|]. split; [discriminate|]. repeat constructor.
Qed.

Lemma unreadable_request_only_logs_witness :
  let loads := fun _ : string =>
                 Ok (JObj [("ref", JStr "refs/heads/main")]) in
  let w := world_of mirrored_fs quiet_shell in
  let w2 := snd (render_POST loads sample_request w) in
  w = w /\
  fst (render_POST loads sample_request w) = Ok tt /\
  fs w2 = fs w /\ cwd w2 = cwd w /\ shell w2 = shell w /\
  self w2 = self w /\ net w2 = net w /\
  exists added,
    logs w2 = logs w ++ added /\ added <> [] /\
    Forall (fun entry => fst entry = ERROR) added.
Proof.
  intros loads w.
  apply (unreadable_request_only_logs loads sample_request w
           (Exn KeyError "repository") w).
  reflexivity.
Defined.

(** When the configured root directory does not exist, every readable
    request fails the same way: sync raises [RuntimeError] naming the
    directory before it looks at the repository, the endpoint logs it, and
    the working directory, the file system and the network are untouched. *)
Theorem missing_root_fails_every_request
  json_loads request w payload user repo w1 :
  read_request json_loads request w = (Ok (payload, user, repo), w1) ->
  fs w (local_dir (self w)) = None ->
  let e := Exn RuntimeError (root_missing (local_dir (self w))) in
  let w' := snd (render_POST json_loads request w) in
  render_POST json_loads request w = (Ok tt, exec (log_exception e) w1) /\
  cwd w' = cwd w /\ fs w' = fs w /\ net w' = net w.
Proof.
  intros Hread Hroot e w'. subst w'.
  destruct (read_request_ok json_loads request w payload user repo w1 Hread)
    as (repository & owner & p & _ & _ & _ & _ & _ & _ & _ & _ & Hdir & Hfs
        & Hcwd & _ & Hnet & _).
  assert (Hsync : github_sync (local_dir (self w1)) user repo
                    (github (self w1)) w1 = (Raise e, w1)).
  { unfold github_sync, bind, path_exists, raise.
    rewrite Hfs, Hdir, Hroot. reflexivity. }
  assert (Hrun : render_POST json_loads request w
                 = (Ok tt, exec (log_exception e) w1)).
  { unfold render_POST, try_except, render_POST_try, bind at 1.
    rewrite Hread. unfold bind at 1. unfold get_self at 1. cbv beta iota.
    unfold bind at 1. rewrite Hsync. apply log_exception_run. }
  rewrite Hrun. split; [reflexivity|]. cbn [snd].
  split; [|split]; [exact Hcwd | exact Hfs | exact Hnet].
Qed.

Lemma missing_root_fails_every_request_witness :
  let payload := sample_payload "refs/heads/main" "abc123"
                   [sample_commit "c1" ["a.py"] [] []] in
  let loads := fun _ : string => Ok payload in
  let w := world_of (fun _ => None) quiet_shell in
  let w1 := snd (read_request loads sample_request w) in
  let e := Exn RuntimeError (root_missing "/tmp") in
  let w' := snd (render_POST loads sample_request w) in
  render_POST loads sample_request w = (Ok tt, exec (log_exception e) w1) /\
  cwd w' = cwd w /\ fs w' = fs w /\ net w' = net w.
Proof.
  intros payload loads w w1.
  apply (missing_root_fails_every_request loads sample_request w payload
           (JStr "ktf") (JStr "buildbot") w1); reflexivity.
Defined.

(** The clone of a request goes to the URL its own payload selects: the
    [private] flag read from the payload, taken for its truth value,
    chooses between [git@host:owner/repo.git] and
    [git://host/owner/repo.git], whatever an earlier request left on the
    resource. *)
Theorem payload_flag_selects_the_clone_url
  json_loads request w payload u r w1 :
  read_request json_loads request w = (Ok (payload, JStr u, JStr r), w1) ->
  fs w (local_dir (self w)) = Some Dir ->
  fs w (mirror_path (local_dir (self w)) r) = None ->
  exists repository p rest,
    getitem payload "repository" = Ok repository /\
    getitem repository "private" = Ok p /\
    logs (snd (github_sync (local_dir (self w1)) (JStr u) (JStr r)
                 (github (self w1)) w1)) =
      logs w ++
      (DEBUG, PayloadDump payload)
      :: (INFO,
          Text ("Clone bare repository: git clone --mirror "
                ^^ (if truthy p
                    then "git@" ^^ github (self w) ^^ ":" ^^ u ^^ "/" ^^ r
                         ^^ ".git"
                    else "git://" ^^ github (self w) ^^ "/" ^^ u ^^ "/" ^^ r
                         ^^ ".git")
                ^^ " " ^^ mirror_path (local_dir (self w)) r))
      :: rest.
Proof.
  intros Hread Htmp Hno.
  destruct (read_request_ok json_loads request w payload (JStr u) (JStr r) w1
              Hread)
    as (repository & owner & p & Hrep & _ & _ & _ & Hp & Hpriv & Hgh & _
        & Hdir & Hfs & _ & _ & _ & Hlogs).
  exists repository, p. rewrite Hdir, Hgh.
  unfold mirror_path in *.
  unfold github_sync, create_repo, bind, path_exists, lift, chdir, logging,
    getstatusoutput, raise, ret, get_self, clone_url, repodir_of.
  rewrite Hfs, Htmp. simpl. rewrite Hfs, Hno. simpl. rewrite Hpriv.
  destruct (truthy p); simpl; rewrite Hfs, Htmp; simpl;
    match goal with |- context [shell w1 ?d ?c ?f] =>
      destruct (shell w1 d c f) as [[st out] fs'] end;
    simpl; destruct (Z.eqb st 0); simpl; rewrite Hlogs;
    eexists; (split; [exact Hrep|]); (split; [exact Hp|]);
    rewrite <- !app_assoc; simpl; rewrite !append_assoc; reflexivity.
Qed.

Lemma payload_flag_selects_the_clone_url_witness :
  let payload :=
    JObj [("repository",
           JObj [("name", JStr "buildbot"); ("private", JNum 1);
                 ("owner", JObj [("name", JStr "ktf")])]);
          ("ref", JStr "refs/heads/main"); ("after", JStr "abc123");
          ("commits", JArr [])] in
  let loads := fun _ : string => Ok payload in
  let w := world_of fresh_fs quiet_shell in
  let w1 := snd (read_request loads sample_request w) in
  exists repository p rest,
    getitem payload "repository" = Ok repository /\
    getitem repository "private" = Ok p /\
    logs (snd (github_sync (local_dir (self w1)) (JStr "ktf")
                 (JStr "buildbot") (github (self w1)) w1)) =
      logs w ++
      (DEBUG, PayloadDump payload)
      :: (INFO,
          Text ("Clone bare repository: git clone --mirror "
                ^^ (if truthy p
                    then "git@" ^^ github (self w) ^^ ":" ^^ "ktf" ^^ "/"
                         ^^ "buildbot" ^^ ".git"
                    else "git://" ^^ github (self w) ^^ "/" ^^ "ktf" ^^ "/"
                         ^^ "buildbot" ^^ ".git")
                ^^ " " ^^ mirror_path (local_dir (self w)) "buildbot"))
      :: rest.
Proof.
  intros payload loads w w1.
  apply (payload_flag_selects_the_clone_url loads sample_request w payload
           "ktf" "buildbot" w1); reflexivity.
Defined.

(** * Properties of the Twitter notifier *)

Module TwitterProps.
Import Twitter.

#[local] Arguments String.append : clear simpl.

Lemma member_three (m : string) :
  member m ["all"; "failing"; "problem"] = true ->
  m = "all" \/ m = "failing" \/ m = "problem".
Proof.
  unfold member. simpl. intros H.
  destruct (String.eqb_spec m "all"); [now left|].
  destruct (String.eqb_spec m "failing"); [right; now left|].
  destruct (String.eqb_spec m "problem"); [right; now right|].
  discriminate.
Qed.

(** A notifier that the constructor returns has one of the modes "all",
    "failing", "problem" (never the documented "passing"), at most one of
    the two filters, no watched builder and no status yet; it carries the
    arguments it was given, and nothing was logged. *)
Theorem constructed_notifier_is_well_formed
  name pass md cats blds msg handled env n env' :
  init name pass md cats blds msg handled env = (Done n, env') ->
  (mode n = "all" \/ mode n = "failing" \/ mode n = "problem") /\
  mode n <> "passing" /\
  (builders n = None \/ categories n = None) /\
  watched n = [] /\ status n = None /\
  twitname n = name /\ twitpass n = pass /\ mode n = md /\
  message n = msg /\ categories n = cats /\ builders n = blds /\
  env' = env.
Proof.
  unfold init.
  destruct (member md ["all"; "failing"; "problem"]) eqn:Em; simpl;
    [|discriminate].
  apply member_three in Em.
  destruct blds as [bl|]; destruct cats as [cl|]; intros H;
    inversion H; subst; simpl; repeat split; auto;
    destruct Em as [-> | [-> | ->]]; discriminate.
Qed.

Lemma constructed_notifier_is_well_formed_witness :
  let n := {| twitname := "bot"; twitpass := "secret"; mode := "problem";
              message := default_message; categories := Some ["release"];
              builders := None; watched := []; status := None |} in
  (mode n = "all" \/ mode n = "failing" \/ mode n = "problem") /\
  mode n <> "passing" /\
  (builders n = None \/ categories n = None) /\
  watched n = [] /\ status n = None /\
  twitname n = "bot" /\ twitpass n = "secret" /\ mode n = "problem" /\
  message n = default_message /\ categories n = Some ["release"] /\
  builders n = None /\
  empty_env = empty_env.
Proof.
  intros n.
  apply (constructed_notifier_is_well_formed "bot" "secret" "problem"
           (Some ["release"]) None default_message None empty_env n empty_env).
  reflexivity.
Defined.

(** The constructor refuses every mode but "all", "failing" and "problem"
    with an [AssertionError] and without a trace, "passing" included; and
    with an accepted mode it refuses builders and categories given
    together: it logs its complaint and the bare [raise] fails. *)
Theorem constructor_refusals name pass md cats blds msg handled env :
  (member md ["all"; "failing"; "problem"] = false ->
   init name pass md cats blds msg handled env = (Fail AssertionError, env)) /\
  init name pass "passing" cats blds msg handled env
    = (Fail AssertionError, env) /\
  (member md ["all"; "failing"; "problem"] = true ->
   forall bl cl, blds = Some bl -> cats = Some cl ->
   exists env',
     init name pass md cats blds msg handled env
       = (Fail (bare_raise handled), env') /\
     twlog env' = twlog env ++
       ["Please specify only builders to ignore or categories to include"] /\
     tweets env' = tweets env).
Proof.
  split; [|split].
  - intros H. unfold init. now rewrite H.
  - reflexivity.
  - intros H bl cl -> ->. unfold init. rewrite H. simpl.
    eexists. repeat split.
Qed.

Lemma constructor_refusals_witness :
  init "bot" "secret" "failed" None None default_message None empty_env
    = (Fail AssertionError, empty_env) /\
  exists env',
    init "bot" "secret" "all" (Some ["release"]) (Some ["linux"])
      default_message None empty_env = (Fail NoActiveException, env') /\
    twlog env' = twlog empty_env ++
      ["Please specify only builders to ignore or categories to include"] /\
    tweets env' = tweets empty_env.
Proof.
  split.
  - apply (proj1 (constructor_refusals "bot" "secret" "failed" None None
                    default_message None empty_env)).
    reflexivity.
  - apply (proj2 (proj2 (constructor_refusals "bot" "secret" "all"
                           (Some ["release"]) (Some ["linux"])
                           default_message None empty_env))
             eq_refl ["linux"] ["release"]); reflexivity.
Defined.

Lemma builderAdded_keeps_settings name b n :
  categories (snd (builderAdded name b n)) = categories n /\
  builders (snd (builderAdded name b n)) = builders n /\
  mode (snd (builderAdded name b n)) = mode n /\
  watched (snd (builderAdded name b n)) =
    watched n ++ (if interested n b then [b] else []).
Proof.
  unfold builderAdded, interested.
  destruct (categories n) as [cats|] eqn:E; simpl.
  - destruct (category_in b cats); simpl; rewrite ?E, ?app_nil_r;
      repeat split; reflexivity.
  - repeat split; reflexivity.
Qed.

(** After any run of [builderAdded], the watched list has grown by the
    announced builders whose category is one of [categories], in order (by
    all of them when no categories are set); the [builders] filter plays no
    part in it, and the answer of each call says whether the builder was
    taken. *)
Theorem watched_builders_follow_categories n bs :
  watched (announce n bs) = watched n ++ filter (interested n) bs /\
  categories (announce n bs) = categories n /\
  (forall name b, fst (builderAdded name b n) = interested n b).
Proof.
  split; [|split].
  - unfold announce. revert n.
    induction bs as [|b bs IH]; intros n; simpl.
    + now rewrite app_nil_r.
    + rewrite IH.
      destruct (builderAdded_keeps_settings (builder_name b) b n)
        as (Hc & _ & _ & Hw).
      rewrite Hw.
      assert (Hi : interested (snd (builderAdded (builder_name b) b n))
                   = interested n).
      { unfold interested. now rewrite Hc. }
      rewrite Hi.
      destruct (interested n b); simpl; now rewrite <- app_assoc.
  - unfold announce. revert n.
    induction bs as [|b bs IH]; intros n; simpl; [reflexivity|].
    rewrite IH. apply builderAdded_keeps_settings.
  - intros name b. unfold builderAdded, interested.
    destruct (categories n) as [cats|]; [|reflexivity].
    destruct (category_in b cats); reflexivity.
Qed.

(** No result text, no message: the local [result] is read unbound. *)
Lemma buildMessage_without_result X n name build results env st :
  status n = Some st ->
  results <> SUCCESS X -> results <> WARNINGS X ->
  exists v, buildMessage X n name build results env
            = (Fail (UnboundLocalError v), env).
Proof.
  intros Hst Hs Hw. unfold buildMessage, result_text. rewrite Hst.
  destruct (revision_text build) as [rev|e] eqn:Er.
  - destruct (Z.eqb_spec results (SUCCESS X)); [contradiction|].
    destruct (Z.eqb_spec results (WARNINGS X)); [contradiction|].
    now exists "result".
  - unfold revision_text in Er.
    destruct (getSourceStamp build) as [ss|]; [|discriminate].
    destruct (truthy (ss_revision ss)); [|discriminate].
    inversion Er. now exists "source".
Qed.

(** [buildMessage] cannot report a build that is neither a success nor one
    with warnings, nor a build whose source stamp has a revision: in the
    first case the local [result] is never bound, in the second [source]
    is read before any assignment, and it raises [UnboundLocalError]
    without posting. *)
Theorem buildMessage_raises_on_failures_and_revisions
  X n name build results env st :
  status n = Some st ->
  (results <> SUCCESS X /\ results <> WARNINGS X) \/
  (exists ss, getSourceStamp build = Some ss /\ truthy (ss_revision ss) = true)
  ->
  exists v, buildMessage X n name build results env
            = (Fail (UnboundLocalError v), env).
Proof.
  intros Hst [[Hs Hw] | (ss & Hss & Ht)].
  - now apply (buildMessage_without_result X n name build results env st).
  - unfold buildMessage, revision_text. rewrite Hst, Hss, Ht.
    now exists "source".
Qed.

Lemma buildMessage_raises_on_failures_and_revisions_witness :
  exists v,
    buildMessage (codes result_only) (sample_notifier "all") "linux"
      (sample_build None 2 None) 2 empty_env
    = (Fail (UnboundLocalError v), empty_env).
Proof.
  apply (buildMessage_raises_on_failures_and_revisions (codes result_only)
           (sample_notifier "all") "linux" (sample_build None 2 None) 2
           empty_env sample_status).
  - reflexivity.
  - left. split; discriminate.
Defined.

(** With result codes that tell a failure from a success and from
    warnings, a notifier in mode "failing" or "problem" never posts: every
    finished build is either ignored or runs into the exception of
    [buildMessage], and the updates and the log stay as they were. *)
Theorem failing_and_problem_modes_never_post
  X n name build results env :
  FAILURE X <> SUCCESS X ->
  FAILURE X <> WARNINGS X ->
  mode n = "failing" \/ mode n = "problem" ->
  snd (buildFinished X n name build results env) = env /\
  (fst (buildFinished X n name build results env) = Done Ignored \/
   exists e, fst (buildFinished X n name build results env) = Fail e /\
             (e = NoneHasNoAttribute "getProjectName" \/
              exists v, e = UnboundLocalError v)).
Proof.
  intros Hs Hw Hmode.
  assert (Hmsg : results = FAILURE X ->
            snd (buildMessage X n name build results env) = env /\
            exists e, fst (buildMessage X n name build results env) = Fail e /\
                      (e = NoneHasNoAttribute "getProjectName" \/
                       exists v, e = UnboundLocalError v)).
  { intros ->. destruct (status n) as [st|] eqn:Est.
    - destruct (buildMessage_without_result
                  X n name build (FAILURE X) env st Est Hs Hw) as (v & Hv).
      rewrite Hv. split; [reflexivity|].
        eexists. split; [reflexivity|]. right. now exists v.
    - unfold buildMessage. rewrite Est. split; [reflexivity|].
      eexists. split; [reflexivity|]. now left. }
  unfold buildFinished.
  destruct (match builders n with
            | Some l => negb (member name l)
            | None => false
            end); [split; [reflexivity | now left]|].
  destruct (match categories n with
            | Some cats => negb (category_in (getBuilder build) cats)
            | None => false
            end); [split; [reflexivity | now left]|].
  destruct (Z.eqb_spec results (FAILURE X)) as [E|E];
    destruct Hmode as [-> | ->]; simpl;
    try (split; [reflexivity | now left]).
  - destruct (Hmsg E) as (H1 & H2). split; [exact H1 | right; exact H2].
  - destruct (getPreviousBuild build) as [prev|].
    + destruct (Z.eqb (getResults prev) (FAILURE X));
        [split; [reflexivity | now left]|].
      destruct (Hmsg E) as (H1 & H2). split; [exact H1 | right; exact H2].
    + destruct (Hmsg E) as (H1 & H2). split; [exact H1 | right; exact H2].
Qed.

Lemma failing_and_problem_modes_never_post_witness :
  let X := codes result_only in
  let n := sample_notifier "problem" in
  let build := sample_build (Some (sample_build None 0 None)) 2 None in
  snd (buildFinished X n "linux" build 2 empty_env) = empty_env /\
  (fst (buildFinished X n "linux" build 2 empty_env) = Done Ignored \/
   exists e, fst (buildFinished X n "linux" build 2 empty_env) = Fail e /\
             (e = NoneHasNoAttribute "getProjectName" \/
              exists v, e = UnboundLocalError v)).
Proof.
  intros X n build.
  apply (failing_and_problem_modes_never_post X n "linux" build 2 empty_env).
  - discriminate.
  - discriminate.
  - now right.
Defined.

(** What does get posted: in mode "all", a success or a build with
    warnings that passes the builders and categories filters and has no
    known revision is handed over once, under the notifier's account, with
    the text the message gives for "success" or "warnings" and for the
    revision "unavailable" (no source stamp) or "HEAD". *)
Theorem reportable_build_is_posted_once
  X n name build results env st result text :
  status n = Some st ->
  mode n = "all" ->
  (forall l, builders n = Some l -> member name l = true) ->
  (forall cats, categories n = Some cats ->
                category_in (getBuilder build) cats = true) ->
  result_text X results = Some result ->
  (getSourceStamp build = None \/
   exists ss, getSourceStamp build = Some ss /\
              truthy (ss_revision ss) = false) ->
  format X (message n)
    [("projectName", FStr (getProjectName st));
     ("buildSlave", FStr (getSlavename build));
     ("result", FStr result);
     ("revision",
      FStr (match getSourceStamp build with
            | None => "unavailable"
            | Some _ => "HEAD"
            end));
     ("buildUrl", FStr (getURLForThing st build));
     ("buildNumber", FInt (getNumber build))] = Ok text ->
  buildFinished X n name build results env =
    (Done Deferred,
     {| twlog := twlog env;
        tweets := tweets env ++ [(twitname n, twitpass n, text)] |}) /\
  (result = "success" \/ result = "warnings").
Proof.
  intros Hst Hmode Hb Hc Hres Hss Hfmt. split.
  - unfold buildFinished. rewrite Hmode.
    destruct (builders n) as [l|]; [rewrite (Hb l eq_refl)|];
      (destruct (categories n) as [cats|]; [rewrite (Hc cats eq_refl)|]);
      simpl; unfold buildMessage; rewrite Hst, Hres;
      (destruct Hss as [Hn | (ss & Hn & Ht)];
       unfold revision_text; rewrite Hn in *; rewrite ?Ht; simpl;
       rewrite Hfmt; reflexivity).
  - unfold result_text in Hres.
    destruct (Z.eqb results (SUCCESS X)); [inversion Hres; now left|].
    destruct (Z.eqb results (WARNINGS X)); [inversion Hres; now right|].
    discriminate.
Qed.

Lemma reportable_build_is_posted_once_witness :
  let X := codes result_only in
  let n := sample_notifier "all" in
  let build := sample_build None 1 (Some {| ss_revision := JNull |}) in
  buildFinished X n "linux" build 1 empty_env =
    (Done Deferred,
     {| twlog := twlog empty_env;
        tweets := tweets empty_env ++ [(twitname n, twitpass n, "warnings")] |})
  /\ ("warnings" = "success" \/ "warnings" = "warnings").
Proof.
  intros X n build.
  apply (reportable_build_is_posted_once X n "linux" build 1 empty_env
           sample_status "warnings" "warnings"); try reflexivity.
  - discriminate.
  - discriminate.
  - right. exists {| ss_revision := JNull |}. split; reflexivity.
Defined.

End TwitterProps.
